(** * Fermat near-miss finder: a shallow embedding of [fermats_near_miss.py]

    Python integers are unbounded, so they are [Z].  Python floats are IEEE
    binary64 values; the program only converts integers to floats, divides
    integers, takes one power, truncates and compares, so a float is modelled
    by its exact value: a mantissa and a binary exponent.  Exceptions are
    explicit results.  The C library's [pow], which Python calls for
    [sum_value ** (1/n)], is not part of the repository: every definition
    that reaches it takes it as a parameter. *)

From Stdlib Require Import ZArith List Lia Bool Sorted.
From Stdlib Require String.
Import ListNotations.
Local Open Scope Z_scope.

(** ** Exceptions and results *)

Inductive exn : Set :=
| OverflowError
| ZeroDivisionError
| ValueError
| TypeError.

Inductive result (A : Type) : Type :=
| Returns (a : A)
| Raises (e : exn).

Arguments Returns {A} a.
Arguments Raises {A} e.

Definition bind {A B : Type} (r : result A) (k : A -> result B) : result B :=
  match r with
  | Returns a => k a
  | Raises e => Raises e
  end.

Notation "x <- r ;; k" := (bind r (fun x => k))
  (at level 61, r at next level, right associativity).
Notation "' p <- r ;; k" := (bind r (fun p => k))
  (at level 61, p pattern, r at next level, right associativity).

(** ** binary64 values *)

Module Binary64.

(** [Finite m e] is the number [m * 2^e]; the sign of a zero is not kept,
    the program never observes it. *)
Inductive float : Set :=
| NaN
| Inf (neg : bool)
| Finite (m e : Z).

Definition emin : Z := -1074.
Definition overflow_threshold : Z := 2 ^ 1024.

Definition zero : float := Finite 0 0.
Definition one : float := Finite 1 0.
Definition infinity : float := Inf false.

Definition is_nan (f : float) : bool :=
  match f with NaN => true | _ => false end.

Definition is_finite (f : float) : bool :=
  match f with Finite _ _ => true | _ => false end.

(** Comparison of [m1 * 2^e1] with [m2 * 2^e2], both brought to the smaller
    exponent. *)
Definition cmp_finite (m1 e1 m2 e2 : Z) : comparison :=
  let b := Z.min e1 e2 in
  (m1 * 2 ^ (e1 - b)) ?= (m2 * 2 ^ (e2 - b)).

(** Python's [a < b] on floats: false as soon as one side is a NaN. *)
Definition ltb (a b : float) : bool :=
  match a, b with
  | NaN, _ | _, NaN => false
  | Inf true, Inf true => false
  | Inf true, _ => true
  | _, Inf true => false
  | Inf false, _ => false
  | Finite _ _, Inf false => true
  | Finite m1 e1, Finite m2 e2 =>
      match cmp_finite m1 e1 m2 e2 with Lt => true | _ => false end
  end.

(** Python's [a <= b] on floats. *)
Definition leb (a b : float) : bool :=
  match a, b with
  | NaN, _ | _, NaN => false
  | Inf true, _ => true
  | _, Inf false => true
  | Inf false, _ => false
  | _, Inf true => false
  | Finite m1 e1, Finite m2 e2 =>
      match cmp_finite m1 e1 m2 e2 with Gt => false | _ => true end
  end.

Definition eqb (a b : float) : bool :=
  match a, b with
  | NaN, _ | _, NaN => false
  | Inf s, Inf t => Bool.eqb s t
  | Finite m1 e1, Finite m2 e2 =>
      match cmp_finite m1 e1 m2 e2 with Eq => true | _ => false end
  | _, _ => false
  end.

Definition opp (f : float) : float :=
  match f with
  | NaN => NaN
  | Inf s => Inf (negb s)
  | Finite m e => Finite (- m) e
  end.

(** [floor (log2 (a / b))] for positive [a] and [b]. *)
Definition ratio_log2 (a b : Z) : Z :=
  let d := Z.log2 a - Z.log2 b in
  let above := if 0 <=? d then b * 2 ^ d <=? a else b <=? a * 2 ^ (- d) in
  if above then d else d - 1.

(** Round to nearest, ties to even: [q] and [r] are the quotient and the
    remainder of a division by [d]. *)
Definition round_half_even (q r d : Z) : Z :=
  match 2 * r ?= d with
  | Lt => q
  | Gt => q + 1
  | Eq => if Z.even q then q else q + 1
  end.

(** The binary64 nearest to [a / b], for positive [a] and [b]: 53 significant
    bits, exponent not below [emin] (gradual underflow), [Inf] on overflow. *)
Definition round_pos (a b : Z) : float :=
  let e := Z.max (ratio_log2 a b - 52) emin in
  let num := if 0 <=? e then a else a * 2 ^ (- e) in
  let den := if 0 <=? e then b * 2 ^ e else b in
  let m := round_half_even (num / den) (num mod den) den in
  if (0 <=? e) && (overflow_threshold <=? m * 2 ^ e)
  then Inf false
  else Finite m e.

(** The binary64 nearest to [a / b], for [b <> 0]. *)
Definition round_ratio (a b : Z) : float :=
  if a =? 0 then zero
  else
    let r := round_pos (Z.abs a) (Z.abs b) in
    if Bool.eqb (a <? 0) (b <? 0) then r else opp r.

(** IEEE subtraction: the exact difference, rounded. *)
Definition sub (a b : float) : float :=
  match a, b with
  | NaN, _ | _, NaN => NaN
  | Inf s, Inf t => if Bool.eqb s t then NaN else Inf s
  | Inf s, Finite _ _ => Inf s
  | Finite _ _, Inf t => Inf (negb t)
  | Finite m1 e1, Finite m2 e2 =>
      let b := Z.min e1 e2 in
      let d := m1 * 2 ^ (e1 - b) - m2 * 2 ^ (e2 - b) in
      if 0 <=? b then round_ratio (d * 2 ^ b) 1 else round_ratio d (2 ^ (- b))
  end.

(** Whether a finite value is an integer. *)
Definition is_integral (m e : Z) : bool :=
  (0 <=? e) || (m mod 2 ^ (- e) =? 0).

(** Whether an integral finite value is odd. *)
Definition is_odd_integer (m e : Z) : bool :=
  if 0 <? e then false
  else if e =? 0 then Z.odd m
  else Z.odd (m / 2 ^ (- e)).

(** Truncation toward zero of a finite value. *)
Definition trunc (m e : Z) : Z :=
  if 0 <=? e then m * 2 ^ e else Z.quot m (2 ^ (- e)).

End Binary64.

Import Binary64.

(** ** The Python operations the program uses *)

(** [float(a)] for an integer, as done implicitly by [int ** float]. *)
Definition py_float_of_int (a : Z) : result float :=
  match round_ratio a 1 with
  | Inf _ => Raises OverflowError
  | f => Returns f
  end.

(** [a / b] on integers: true division, correctly rounded. *)
Definition py_truediv (a b : Z) : result float :=
  if b =? 0 then Raises ZeroDivisionError
  else
    match round_ratio a b with
    | Inf _ => Raises OverflowError
    | f => Returns f
    end.

(** [int(f)]. *)
Definition py_int (f : float) : result Z :=
  match f with
  | NaN => Raises ValueError
  | Inf _ => Raises OverflowError
  | Finite m e => Returns (trunc m e)
  end.

(** ** The program *)

(** What the search prints, as structured events. *)
Inductive event : Type :=
| Banner (n k : Z)
| NewBest (x y best_z : Z) (is_lower_z : bool) (abs_miss : Z)
    (rel_miss : float) (checked total : Z) (fraction : float)
| Progress (checked total : Z) (fraction elapsed best : float).

(** The tuple [(x, y, best_z, abs_miss, rel_miss)] kept in [best_result]. *)
Definition best_record : Type := (Z * Z * Z * Z * float)%type.


(** The local variables of [find_near_misses] that live across iterations,
    the number of clock readings taken so far and the printed events. *)
Record search_state : Type := {
  best_relative_miss : float;
  best_result : option best_record;
  combinations_checked : Z;
  clock_reads : nat;
  output : list event
}.

(** The final block printed after the loops. *)
Inductive final_report : Type :=
| BestNearMiss (x y z sum_value z_power abs_miss : Z) (rel_miss : float)
| NoValidNearMisses.

Record search_outcome : Type := {
  final_state : search_state;
  report : final_report;
  elapsed_time : float;
  total_checked : Z
}.

(** [range(lo, hi)]. *)
Definition py_range (lo hi : Z) : list Z :=
  map (fun i => lo + Z.of_nat i) (seq 0 (Z.to_nat (hi - lo))).

(** A [for] loop whose body may raise. *)
Fixpoint for_each {A S : Type} (body : A -> S -> result S) (l : list A) (st : S)
  : result S :=
  match l with
  | [] => Returns st
  | a :: l' => st' <- body a st ;; for_each body l' st'
  end.

Section Program.

(** The C library's [pow] on doubles. *)
Variable libm_pow : float -> float -> float.

(** [time.time()]: the value of the i-th reading. *)
Variable clock : nat -> float.

(** The call of the C library inside [float.__pow__], with the checks
    Python makes on the result: an infinite result is an [OverflowError], a
    NaN a [ValueError]. *)
Definition call_libm_pow (iv iw : float) (negate_result : bool) : result float :=
  match libm_pow iv iw with
  | NaN => Raises ValueError
  | Inf _ => Raises OverflowError
  | r => Returns (if negate_result then opp r else r)
  end.

(** [iv ** iw] on floats, in the order of CPython's [float_pow].  A negative
    base with a fractional exponent gives a complex number in Python, which
    [int()] then rejects with a [TypeError]; nothing happens in between, so
    the model raises it here.  Only finite operands reach this function:
    both come out of a conversion or a division of integers. *)
Definition py_float_pow (iv iw : float) : result float :=
  match iv, iw with
  | Finite mv ev, Finite mw ew =>
      if mw =? 0 then Returns one
      else if mv =? 0 then
        if mw <? 0 then Raises ZeroDivisionError else Returns zero
      else if mv <? 0 then
        if negb (is_integral mw ew) then Raises TypeError
        else
          let negate_result := is_odd_integer mw ew in
          if eqb (opp iv) one
          then Returns (if negate_result then opp one else one)
          else call_libm_pow (opp iv) iw negate_result
      else if eqb iv one then Returns one
      else call_libm_pow iv iw false
  | _, _ => Returns (libm_pow iv iw)
  end.

(** [a ** w] for an integer [a] and a float [w]: the integer is converted
    first. *)
Definition py_pow (a : Z) (w : float) : result float :=
  iv <- py_float_of_int a ;;
  py_float_pow iv w.

(** Lines 41 and 42 of the source: the truncated floating-point root. *)
Definition float_root_estimate (sum_value n : Z) : result Z :=
  inv_n <- py_truediv 1 n ;;
  z_float <- py_pow sum_value inv_n ;;
  py_int z_float.

(** The exponent [n] is the validated one of [main] ([2 < n < 12]); integer
    powers [z ** n] are integers for [0 <= n]. *)
Definition calculate_z_value (sum_value n : Z) : result Z :=
  inv_n <- py_truediv 1 n ;;
  z_float <- py_pow sum_value inv_n ;;
  z <- py_int z_float ;;
  Returns (if sum_value <=? z ^ n then z - 1 else z).

Definition calculate_miss (x y z n : Z) : result (Z * float * bool) :=
  let sum_value := x ^ n + y ^ n in
  let lower_miss := sum_value - z ^ n in
  let upper_miss := (z + 1) ^ n - sum_value in
  if lower_miss <=? upper_miss
  then rel <- py_truediv lower_miss sum_value ;; Returns (lower_miss, rel, true)
  else rel <- py_truediv upper_miss sum_value ;; Returns (upper_miss, rel, false).

(** The comparison with the running best and its update. *)
Definition update_best (n total x y z abs_miss : Z) (rel_miss : float)
    (is_lower_z : bool) (checked : Z) (st : search_state) : result search_state :=
  if ltb rel_miss (best_relative_miss st) then
    let best_z := if is_lower_z then z else z + 1 in
    fraction <- py_truediv checked total ;;
    Returns {| best_relative_miss := rel_miss;
               best_result := Some (x, y, best_z, abs_miss, rel_miss);
               combinations_checked := checked;
               clock_reads := clock_reads st;
               output := output st ++
                 [NewBest x y best_z is_lower_z abs_miss rel_miss checked total fraction] |}
  else
    Returns {| best_relative_miss := best_relative_miss st;
               best_result := best_result st;
               combinations_checked := checked;
               clock_reads := clock_reads st;
               output := output st |}.

(** The progress lines printed every 10000 candidates. *)
Definition report_progress (total : Z) (start_time : float) (st : search_state)
  : result search_state :=
  if combinations_checked st mod 10000 =? 0 then
    let elapsed := sub (clock (clock_reads st)) start_time in
    fraction <- py_truediv (combinations_checked st) total ;;
    Returns {| best_relative_miss := best_relative_miss st;
               best_result := best_result st;
               combinations_checked := combinations_checked st;
               clock_reads := S (clock_reads st);
               output := output st ++
                 [Progress (combinations_checked st) total fraction elapsed
                    (best_relative_miss st)] |}
  else Returns st.

(** The body of the inner loop. *)
Definition visit (n total : Z) (start_time : float) (x y : Z) (st : search_state)
  : result search_state :=
  let checked := combinations_checked st + 1 in
  let sum_value := x ^ n + y ^ n in
  z <- calculate_z_value sum_value n ;;
  '(abs_miss, rel_miss, is_lower_z) <- calculate_miss x y z n ;;
  st1 <- update_best n total x y z abs_miss rel_miss is_lower_z checked st ;;
  report_progress total start_time st1.

Definition initial_state (n k : Z) : search_state :=
  {| best_relative_miss := infinity;
     best_result := None;
     combinations_checked := 0;
     clock_reads := 1;
     output := [Banner n k] |}.

(** The two nested loops. *)
Definition search_loops (n k total : Z) (start_time : float) (st : search_state)
  : result search_state :=
  for_each
    (fun x => for_each (visit n total start_time x) (py_range 10 (k + 1)))
    (py_range 10 (k + 1)) st.

Definition summarize (n : Z) (best : option best_record) : final_report :=
  match best with
  | Some (x, y, z, abs_miss, rel_miss) =>
      BestNearMiss x y z (x ^ n + y ^ n) (z ^ n) abs_miss rel_miss
  | None => NoValidNearMisses
  end.

Definition find_near_misses (n k : Z) : result search_outcome :=
  let total_combinations := (k - 9) * (k - 9) in
  let start_time := clock 0%nat in
  st <- search_loops n k total_combinations start_time (initial_state n k) ;;
  let elapsed := sub (clock (clock_reads st)) start_time in
  Returns {| final_state := st;
             report := summarize n (best_result st);
             elapsed_time := elapsed;
             total_checked := combinations_checked st |}.

(** ** Vocabulary of the statements *)

(** What the loop body computes for the candidate [(x, y)]. *)
Definition evaluates (n x y z abs_miss : Z) (rel_miss : float) (is_lower_z : bool)
  : Prop :=
  calculate_z_value (x ^ n + y ^ n) n = Returns z /\
  calculate_miss x y z n = Returns (abs_miss, rel_miss, is_lower_z).


(** The loop invariant, over the candidates [done] already visited. *)
Definition search_inv (n : Z) (done : list (Z * Z)) (st : search_state) : Prop :=
  combinations_checked st = Z.of_nat (length done) /\
  is_nan (best_relative_miss st) = false /\
  (forall x y, In (x, y) done ->
     exists z abs_miss rel_miss is_lower_z,
       evaluates n x y z abs_miss rel_miss is_lower_z /\
       leb (best_relative_miss st) rel_miss = true) /\
  match best_result st with
  | None => done = [] /\ best_relative_miss st = infinity
  | Some (x, y, best_z, abs_miss, rel_miss) =>
      rel_miss = best_relative_miss st /\ In (x, y) done /\
      exists z is_lower_z,
        evaluates n x y z abs_miss rel_miss is_lower_z /\
        best_z = (if is_lower_z then z else z + 1)
  end.


End Program.

(** The pairs [(x, y)] in the order the nested loops visit them. *)
Definition grid (k : Z) : list (Z * Z) :=
  flat_map (fun x => map (pair x) (py_range 10 (k + 1))) (py_range 10 (k + 1)).

(** Results related by [R]: both return related values or both raise the
    same exception. *)
Definition result_rel {A B : Type} (R : A -> B -> Prop) (r1 : result A) (r2 : result B)
  : Prop :=
  match r1, r2 with
  | Returns a, Returns b => R a b
  | Raises e1, Raises e2 => e1 = e2
  | _, _ => False
  end.

(** What a run reports apart from times: the final report, the number of
    candidates checked and the best record with its relative miss. *)
Definition untimed (out : search_outcome) : final_report * Z * option best_record * float :=
  (report out, total_checked out, best_result (final_state out),
   best_relative_miss (final_state out)).

(** Two states that differ at most in what was printed. *)
Definition same_search (s t : search_state) : Prop :=
  best_relative_miss s = best_relative_miss t /\
  best_result s = best_result t /\
  combinations_checked s = combinations_checked t.

(** ** A concrete [pow] and a concrete clock

    Used to run the model on concrete inputs: [sample_pow x y] takes the
    exponent [y] as the inverse of an integer [n] and returns the binary64
    nearest to the n-th root of [x], computed on integers with 64 extra
    bits. *)

Module Sample.

(** The largest [r] in [[lo, hi)] with [r ^ n <= a], by bisection. *)
Fixpoint root_between (fuel : nat) (a n lo hi : Z) : Z :=
  match fuel with
  | O => lo
  | S fuel' =>
      if hi - lo <=? 1 then lo
      else
        let mid := (lo + hi) / 2 in
        if mid ^ n <=? a then root_between fuel' a n mid hi
        else root_between fuel' a n lo mid
  end.

Definition iroot (a n : Z) : Z :=
  let bits := Z.log2 a / n + 1 in
  root_between (Z.to_nat bits + 1) a n 0 (2 ^ bits).

Definition sample_pow (x y : float) : float :=
  match x, y with
  | Finite mx ex, Finite my ey =>
      if (0 <? mx) && (0 <? my) && (ey <? 0) then
        let n := (2 ^ (- ey) + my / 2) / my in
        round_ratio (iroot (Z.shiftl mx (ex + 64 * n)) n) (2 ^ 64)
      else NaN
  | _, _ => NaN
  end.

Definition sample_clock (i : nat) : float := Finite (Z.of_nat i) 0.

End Sample.

(** A [pow] that answers 20.0 whatever it is asked. *)
Definition pow_twenty (x y : float) : float := Finite 20 0.

(** The floats [2000.0] and [1/3] the scenario passes to [pow]. *)
Definition float_2000 : float := Finite 8796093022208000 (-42).
Definition float_third : float := Finite 6004799503160661 (-54).

(** ** What the search prints *)







(** ** The console session of [main] *)

(** What [main] writes, line by line, apart from the text of the search. *)
Inductive message : Type :=
| Header
| PromptN
| PromptK
| ErrorRangeN
| ErrorRangeK
| ErrorNotInteger
| Searched (n k : Z) (out : search_outcome)
| PromptExit.

(** How the session ends: [main] returns, [input()] finds the input closed
    (an [EOFError], which [main] does not catch), or the search raises. *)
Inductive session_end : Type :=
| Exited
| EndOfInput
| Uncaught (e : exn).

(** [2 < n < 12] and [k > 10]. *)
Definition valid_n (n : Z) : bool := (2 <? n) && (n <? 12).
Definition valid_k (k : Z) : bool := 10 <? k.

Section Main.

(** [int(s)] on a line of input: [None] stands for the [ValueError]. *)
Variable parse_int : String.string -> option Z.

Variable libm_pow : float -> float -> float.
Variable clock : nat -> float.

(** One of the two [while True] loops of [main]: prompt, read a line, and
    start over after an error message unless the line is an integer that
    passes the test.  The lines still to be read are the argument. *)
Fixpoint prompt_until (valid : Z -> bool) (prompt range_error : message)
    (inputs : list String.string) : list message * option (Z * list String.string) :=
  match inputs with
  | [] => ([prompt], None)
  | line :: rest =>
      match parse_int line with
      | Some v =>
          if valid v then ([prompt], Some (v, rest))
          else
            let '(printed, r) := prompt_until valid prompt range_error rest in
            (prompt :: range_error :: printed, r)
      | None =>
          let '(printed, r) := prompt_until valid prompt range_error rest in
          (prompt :: ErrorNotInteger :: printed, r)
      end
  end.

Definition main (inputs : list String.string) : list message * session_end :=
  let '(printed_n, read_n) := prompt_until valid_n PromptN ErrorRangeN inputs in
  match read_n with
  | None => (Header :: printed_n, EndOfInput)
  | Some (n, rest) =>
      let '(printed_k, read_k) := prompt_until valid_k PromptK ErrorRangeK rest in
      match read_k with
      | None => (Header :: printed_n ++ printed_k, EndOfInput)
      | Some (k, rest') =>
          match find_near_misses libm_pow clock n k with
          | Raises e => (Header :: printed_n ++ printed_k, Uncaught e)
          | Returns out =>
              (Header :: printed_n ++ printed_k ++ [Searched n k out; PromptExit],
               match rest' with [] => EndOfInput | _ :: _ => Exited end)
          end
      end
  end.

(** A line the loop answers with an error message: not an integer, or an
    integer that fails the test. *)
Definition rejected (valid : Z -> bool) (line : String.string) : Prop :=
  match parse_int line with
  | Some v => valid v = false
  | None => True
  end.

(** The message that answers a rejected line. *)
Definition rejection_message (range_error : message) (line : String.string) : message :=
  match parse_int line with
  | Some _ => range_error
  | None => ErrorNotInteger
  end.

(** What the loop prints while it goes through rejected lines. *)
Definition retries (prompt range_error : message) (pre : list String.string)
  : list message :=
  flat_map (fun line => [prompt; rejection_message range_error line]) pre.

End Main.

(** ** A concrete [int()] and a concrete input

    [sample_int] reads a non-empty line of decimal digits; the sample session
    answers 12, abc and 3 to the first prompt, 10 and 11 to the second, and
    presses Enter at the end. *)

Module SampleSession.

Import String Ascii.

Fixpoint digits_value (s : string) (acc : Z) : option Z :=
  match s with
  | EmptyString => Some acc
  | String c s' =>
      let d := Z.of_N (N_of_ascii c) - 48 in
      if (0 <=? d) && (d <=? 9) then digits_value s' (10 * acc + d) else None
  end.

Definition sample_int (s : string) : option Z :=
  match s with
  | EmptyString => None
  | _ => digits_value s 0
  end.

Definition lines_before_n : list string := ["12"%string; "abc"%string].
Definition line_n : string := "3"%string.
Definition lines_before_k : list string := ["10"%string].
Definition line_k : string := "11"%string.
Definition lines_after_k : list string := [EmptyString].
Definition lines_after_n : list string := lines_before_k ++ line_k :: lines_after_k.
Definition session_lines : list string := lines_before_n ++ line_n :: lines_after_n.

Definition session_printed : list message :=
  [Header; PromptN; ErrorRangeN; PromptN; ErrorNotInteger; PromptN;
   PromptK; ErrorRangeK; PromptK].

End SampleSession.

(** * Properties of the float model *)

Lemma ratio_log2_nonpos (a b : Z) :
  0 < a -> a <= b -> ratio_log2 a b <= 0.
Proof.
  intros Ha Hab. unfold ratio_log2.
  pose proof (Z.log2_le_mono a b Hab) as Hl.
  destruct (0 <=? Z.log2 a - Z.log2 b) eqn:Hd.
  - apply Z.leb_le in Hd.
    destruct (b * 2 ^ (Z.log2 a - Z.log2 b) <=? a); lia.
  - apply Z.leb_gt in Hd.
    destruct (b <=? a * 2 ^ (- (Z.log2 a - Z.log2 b))); lia.
Qed.

Lemma ratio_log2_of_int (a : Z) :
  0 < a -> ratio_log2 a 1 = Z.log2 a.
Proof.
  intros Ha. unfold ratio_log2.
  change (Z.log2 1) with 0. rewrite Z.sub_0_r.
  pose proof (Z.log2_nonneg a) as Hn.
  destruct (0 <=? Z.log2 a) eqn:Hd; [| apply Z.leb_gt in Hd; lia].
  destruct (Z.log2_spec a Ha) as [Hlo _].
  rewrite Z.mul_1_l.
  destruct (2 ^ Z.log2 a <=? a) eqn:Hc; [reflexivity |].
  apply Z.leb_gt in Hc. lia.
Qed.

Lemma round_half_even_bounds (q r d : Z) :
  q <= round_half_even q r d <= q + 1.
Proof.
  unfold round_half_even.
  destruct (2 * r ?= d); [destruct (Z.even q) | |]; lia.
Qed.

Lemma round_half_even_exact (q d : Z) :
  0 < d -> round_half_even q 0 d = q.
Proof.
  intros Hd. unfold round_half_even.
  destruct (Z.compare_spec (2 * 0) d); try lia.
Qed.

(** [ratio_log2 a b] is the integer [L] with [2^L <= a / b < 2^(L+1)]. *)
Lemma ratio_log2_spec (a b : Z) :
  0 < a -> 0 < b ->
  (0 <= ratio_log2 a b ->
   b * 2 ^ ratio_log2 a b <= a < b * 2 ^ (ratio_log2 a b + 1)) /\
  (ratio_log2 a b < 0 -> b <= a * 2 ^ (- ratio_log2 a b) < 2 * b).
Proof.
  intros Ha Hb.
  destruct (Z.log2_spec a Ha) as [Hal Hah].
  destruct (Z.log2_spec b Hb) as [Hbl Hbh].
  pose proof (Z.log2_nonneg a) as Hla. pose proof (Z.log2_nonneg b) as Hlb.
  unfold ratio_log2.
  set (la := Z.log2 a) in *. set (lb := Z.log2 b) in *.
  rewrite !Z.pow_succ_r in Hah, Hbh by lia.
  destruct (Z.leb_spec 0 (la - lb)) as [Hd | Hd].
  - assert (Hla' : 2 ^ la = 2 ^ lb * 2 ^ (la - lb))
      by (rewrite <- Z.pow_add_r by lia; f_equal; lia).
    assert (Hp : 0 < 2 ^ (la - lb)) by (apply Z.pow_pos_nonneg; lia).
    destruct (Z.leb_spec (b * 2 ^ (la - lb)) a) as [Hc | Hc].
    + split; [intros _ | lia].
      rewrite Z.pow_add_r, Z.pow_1_r by lia. nia.
    + split.
      * intros HL. replace (la - lb - 1 + 1) with (la - lb) by lia.
        split; [| exact Hc].
        assert (Hs : 2 ^ (la - lb) = 2 * 2 ^ (la - lb - 1))
          by (rewrite <- Z.pow_succ_r by lia; f_equal; lia).
        nia.
      * intros HL. assert (Hz : la - lb = 0) by lia.
        rewrite Hz in *. change (- (0 - 1)) with 1. rewrite Z.pow_1_r.
        rewrite Z.pow_0_r in Hla', Hc. lia.
  - assert (Hlb' : 2 ^ lb = 2 ^ la * 2 ^ (- (la - lb)))
      by (rewrite <- Z.pow_add_r by lia; f_equal; lia).
    assert (Hp : 0 < 2 ^ (- (la - lb))) by (apply Z.pow_pos_nonneg; lia).
    destruct (Z.leb_spec b (a * 2 ^ (- (la - lb)))) as [Hc | Hc].
    + split; [lia | intros _].
      assert (Hq : 0 < 2 ^ (- (la - lb) - 1)) by (apply Z.pow_pos_nonneg; lia).
      assert (Hs : 2 ^ (- (la - lb)) = 2 * 2 ^ (- (la - lb) - 1))
        by (rewrite <- Z.pow_succ_r by lia; f_equal; lia).
      nia.
    + split; [lia | intros _].
      replace (- (la - lb - 1) - 1) with (- (la - lb)) by lia.
      replace (- (la - lb - 1)) with (Z.succ (- (la - lb))) by lia.
      rewrite Z.pow_succ_r by lia. nia.
Qed.

(** The same bounds after scaling by [2^s]. *)
Lemma ratio_log2_scaled (a b s : Z) :
  0 < a -> 0 < b -> 0 <= s -> 0 <= s + ratio_log2 a b ->
  b * 2 ^ (s + ratio_log2 a b) <= a * 2 ^ s < b * 2 ^ (s + ratio_log2 a b + 1).
Proof.
  intros Ha Hb Hs HsL.
  destruct (ratio_log2_spec a b Ha Hb) as [Hpos Hneg].
  set (L := ratio_log2 a b) in *.
  assert (H2s : 0 < 2 ^ s) by (apply Z.pow_pos_nonneg; lia).
  destruct (Z_le_gt_dec 0 L) as [HL | HL].
  - destruct (Hpos HL) as [Hlo Hhi].
    replace (s + L + 1) with (s + (L + 1)) by lia.
    rewrite !Z.pow_add_r by lia. rewrite Z.pow_add_r in Hhi by lia. nia.
  - destruct (Hneg ltac:(lia)) as [Hlo Hhi].
    assert (Hsplit : 2 ^ s = 2 ^ (- L) * 2 ^ (s + L))
      by (rewrite <- Z.pow_add_r by lia; f_equal; lia).
    assert (H2 : 0 < 2 ^ (s + L)) by (apply Z.pow_pos_nonneg; lia).
    rewrite (Z.pow_add_r 2 (s + L) 1), Z.pow_1_r by lia.
    rewrite Hsplit. nia.
Qed.

(** Rounding a remainder to the nearer end: the error is at most half of the
    divisor. *)
Lemma round_half_even_nearest (q r d : Z) :
  0 <= r < d -> 2 * Z.abs (q * d + r - round_half_even q r d * d) <= d.
Proof.
  intros Hr. unfold round_half_even.
  destruct (Z.compare_spec (2 * r) d); [destruct (Z.even q) | |]; nia.
Qed.

(** [round_pos a b] is a binary64 nearest to [a / b]: the error is at most
    half a unit of the last place, and the mantissa has 53 bits, unless the
    exponent is the least one. *)
Lemma round_pos_nearest (a b m e : Z) :
  0 < a -> 0 < b -> round_pos a b = Finite m e ->
  e = Z.max (ratio_log2 a b - 52) emin /\
  (if 0 <=? e then 2 * Z.abs (a - m * (b * 2 ^ e)) <= b * 2 ^ e
   else 2 * Z.abs (a * 2 ^ (- e) - m * b) <= b) /\
  0 <= m <= 2 ^ 53 /\
  (emin < e -> 2 ^ 52 <= m).
Proof.
  intros Ha Hb. unfold round_pos.
  set (e0 := Z.max (ratio_log2 a b - 52) emin).
  set (num := if 0 <=? e0 then a else a * 2 ^ (- e0)).
  set (den := if 0 <=? e0 then b * 2 ^ e0 else b).
  destruct ((0 <=? e0) && _); [discriminate |].
  intros [= <- <-]. split; [reflexivity |].
  assert (Hden : 0 < den).
  { unfold den. destruct (Z.leb_spec 0 e0); [| lia].
    pose proof (Z.pow_pos_nonneg 2 e0 ltac:(lia) ltac:(lia)). nia. }
  assert (Hnum : 0 < num).
  { unfold num. destruct (Z.leb_spec 0 e0); [lia |].
    pose proof (Z.pow_pos_nonneg 2 (- e0) ltac:(lia) ltac:(lia)). nia. }
  pose proof (Z.div_mod num den ltac:(lia)) as Hdm.
  pose proof (Z.mod_pos_bound num den Hden) as Hr.
  pose proof (round_half_even_nearest (num / den) (num mod den) den Hr) as Hnear.
  pose proof (round_half_even_bounds (num / den) (num mod den) den) as Hm.
  assert (Hq0 : 0 <= num / den) by (apply Z.div_pos; lia).
  set (q := num / den) in *. set (r := num mod den) in *.
  set (m := round_half_even q r den) in *.
  replace (q * den + r) with num in Hnear by lia.
  (* the quotient has at most 53 bits, and exactly 53 above the least exponent *)
  assert (Hbits : num < den * 2 ^ 53 /\ (emin < e0 -> den * 2 ^ 52 <= num)).
  { assert (He0 : e0 = Z.max (ratio_log2 a b - 52) (-1074)) by reflexivity.
    pose proof (ratio_log2_scaled a b) as Hsc.
    destruct (ratio_log2_spec a b Ha Hb) as [_ Hneg].
    set (L := ratio_log2 a b) in *.
    unfold num, den, emin.
    destruct (Z.leb_spec 0 e0) as [Hs | Hs].
    - specialize (Hsc 0 Ha Hb ltac:(lia) ltac:(lia)).
      rewrite Z.pow_0_r, Z.mul_1_r, !Z.add_0_l in Hsc. destruct Hsc as [Hlo Hhi].
      assert (H2e : 0 < 2 ^ e0) by (apply Z.pow_pos_nonneg; lia).
      split.
      + assert (Hle : 2 ^ (L + 1) <= 2 ^ e0 * 2 ^ 53).
        { rewrite <- Z.pow_add_r by lia. apply Z.pow_le_mono_r; lia. }
        nia.
      + intros Hn.
        assert (Heq : 2 ^ L = 2 ^ e0 * 2 ^ 52)
          by (rewrite <- Z.pow_add_r by lia; f_equal; lia).
        nia.
    - assert (H2e : 0 < 2 ^ (- e0)) by (apply Z.pow_pos_nonneg; lia).
      destruct (Z_le_gt_dec 0 (- e0 + L)) as [HsL | HsL].
      + specialize (Hsc (- e0) Ha Hb ltac:(lia) HsL). destruct Hsc as [Hlo Hhi].
        split.
        * assert (Hle : 2 ^ (- e0 + L + 1) <= 2 ^ 53) by (apply Z.pow_le_mono_r; lia).
          nia.
        * intros Hn. replace (- e0 + L) with 52 in Hlo by lia. exact Hlo.
      + split; [| lia].
        destruct (Hneg ltac:(lia)) as [_ Hhi].
        assert (Hsplit : 2 ^ (- L) = 2 ^ (- e0) * 2 ^ (e0 - L))
          by (rewrite <- Z.pow_add_r by lia; f_equal; lia).
        assert (Hk : 2 <= 2 ^ (e0 - L)).
        { change 2 with (2 ^ 1) at 1. apply Z.pow_le_mono_r; lia. }
        rewrite Hsplit in Hhi. nia. }
  destruct Hbits as [Hhi Hlo].
  assert (Hq53 : q < 2 ^ 53) by (apply Z.div_lt_upper_bound; lia).
  split.
  - unfold num, den in Hnear. destruct (0 <=? e0); exact Hnear.
  - split; [lia |].
    intros Hn. specialize (Hlo Hn).
    assert (2 ^ 52 <= q) by (apply Z.div_le_lower_bound; lia). lia.
Qed.

(** A quotient that is at most one rounds to a finite value that is at most
    one. *)
Lemma round_pos_le_one (a b : Z) :
  0 < a -> a <= b ->
  exists m e, round_pos a b = Finite m e /\ e <= -52 /\ 0 <= m <= 2 ^ (- e).
Proof.
  intros Ha Hab.
  pose proof (ratio_log2_nonpos a b Ha Hab) as HL.
  unfold round_pos.
  set (e := Z.max (ratio_log2 a b - 52) emin).
  assert (He : e <= -52) by (unfold e, emin; lia).
  assert (Hneg : (0 <=? e) = false) by (apply Z.leb_gt; lia).
  rewrite Hneg. cbn [andb].
  exists (round_half_even (a * 2 ^ (- e) / b) ((a * 2 ^ (- e)) mod b) b), e.
  split; [reflexivity |]. split; [exact He |].
  set (P := 2 ^ (- e)).
  assert (HP : 0 < P) by (apply Z.pow_pos_nonneg; lia).
  assert (Hb : 0 < b) by lia.
  pose proof (Z.div_mod (a * P) b ltac:(lia)) as Hdm.
  pose proof (Z.mod_pos_bound (a * P) b Hb) as Hr.
  set (q := a * P / b) in *. set (r := (a * P) mod b) in *.
  assert (Hq0 : 0 <= q) by (apply Z.div_pos; nia).
  assert (HqP : q <= P) by nia.
  pose proof (round_half_even_bounds q r b) as Hm.
  split; [lia |].
  destruct (Z.eq_dec q P) as [Heq | Hne]; [| lia].
  assert (r = 0) by nia. subst r.
  replace ((a * P) mod b) with 0 by lia.
  rewrite round_half_even_exact by lia. lia.
Qed.

(** A quotient that is at most [1 - 2^-11] rounds strictly below one. *)
Lemma round_pos_lt_one (a b : Z) :
  0 < a -> a * 2 ^ 11 <= b * (2 ^ 11 - 1) ->
  exists m e, round_pos a b = Finite m e /\ e <= -52 /\ 0 <= m < 2 ^ (- e).
Proof.
  intros Ha Hab.
  assert (Hle : a <= b) by lia.
  pose proof (ratio_log2_nonpos a b Ha Hle) as HL.
  unfold round_pos.
  set (e := Z.max (ratio_log2 a b - 52) emin).
  assert (He : e <= -52) by (unfold e, emin; lia).
  assert (Hneg : (0 <=? e) = false) by (apply Z.leb_gt; lia).
  rewrite Hneg. cbn [andb].
  exists (round_half_even (a * 2 ^ (- e) / b) ((a * 2 ^ (- e)) mod b) b), e.
  split; [reflexivity |]. split; [exact He |].
  assert (Hsplit : 2 ^ (- e) = 2 ^ 11 * 2 ^ (- e - 11))
    by (rewrite <- Z.pow_add_r by lia; f_equal; lia).
  set (R := 2 ^ (- e - 11)) in *.
  assert (HR : 2 <= R).
  { unfold R. change 2 with (2 ^ 1) at 1. apply Z.pow_le_mono_r; lia. }
  set (P := 2 ^ (- e)) in *.
  assert (Hb : 0 < b) by lia.
  pose proof (Z.div_mod (a * P) b ltac:(lia)) as Hdm.
  pose proof (Z.mod_pos_bound (a * P) b Hb) as Hr.
  set (q := a * P / b) in *. set (r := (a * P) mod b) in *.
  assert (Hq0 : 0 <= q) by (apply Z.div_pos; nia).
  pose proof (round_half_even_bounds q r b) as Hm.
  split; [lia |].
  assert (HaP : a * P <= b * ((2 ^ 11 - 1) * R)) by (rewrite Hsplit; nia).
  assert (Hq : q <= (2 ^ 11 - 1) * R) by nia.
  lia.
Qed.

(** An integer of 1025 bits or more is beyond every finite binary64. *)
Lemma round_pos_int_overflow (a : Z) :
  overflow_threshold <= a -> round_pos a 1 = Inf false.
Proof.
  unfold overflow_threshold. intros Ha.
  assert (Hpos : 0 < a) by (pose proof (Z.pow_pos_nonneg 2 1024); lia).
  assert (HL : 1024 <= Z.log2 a) by (apply Z.log2_le_pow2; lia).
  destruct (Z.log2_spec a Hpos) as [Hlo _].
  unfold round_pos. rewrite (ratio_log2_of_int a Hpos).
  set (e := Z.max (Z.log2 a - 52) emin).
  assert (He : e = Z.log2 a - 52) by (unfold e, emin; lia).
  assert (Hnn : (0 <=? e) = true) by (apply Z.leb_le; lia).
  rewrite Hnn. cbn [andb]. rewrite Z.mul_1_l.
  set (E := 2 ^ e).
  assert (HE : 0 < E) by (apply Z.pow_pos_nonneg; lia).
  assert (Hsplit : 2 ^ Z.log2 a = 2 ^ 52 * E).
  { unfold E. rewrite <- Z.pow_add_r by lia. f_equal. lia. }
  pose proof (round_half_even_bounds (a / E) (a mod E) E) as Hm.
  assert (Hq : 2 ^ 52 <= a / E) by (apply Z.div_le_lower_bound; lia).
  assert (Hbig : overflow_threshold <= round_half_even (a / E) (a mod E) E * E).
  { unfold overflow_threshold.
    assert (2 ^ 1024 <= 2 ^ Z.log2 a) by (apply Z.pow_le_mono_r; lia).
    nia. }
  apply Z.leb_le in Hbig. rewrite Hbig. reflexivity.
Qed.

(** Rounding never produces a NaN, and an overflow is a positive infinity
    before the sign is applied. *)
Lemma round_pos_shape (a b : Z) :
  round_pos a b = Inf false \/ exists m e, round_pos a b = Finite m e.
Proof.
  unfold round_pos.
  destruct ((0 <=? _) && _); [left | right; eauto]; reflexivity.
Qed.

Lemma round_ratio_shape (a b : Z) :
  (exists s, round_ratio a b = Inf s) \/ exists m e, round_ratio a b = Finite m e.
Proof.
  unfold round_ratio. destruct (a =? 0); [right; unfold zero; eauto |].
  destruct (round_pos_shape (Z.abs a) (Z.abs b)) as [H | (m & e & H)];
    rewrite H; destruct (Bool.eqb _ _); cbn; eauto.
Qed.

(** What [py_truediv] returns is a finite float. *)
Lemma py_truediv_finite (a b : Z) (f : float) :
  py_truediv a b = Returns f -> exists m e, f = Finite m e.
Proof.
  unfold py_truediv. destruct (b =? 0); [discriminate |].
  destruct (round_ratio_shape a b) as [(s & H) | (m & e & H)]; rewrite H.
  - discriminate.
  - intros [= <-]. eauto.
Qed.

(** A quotient of absolute value at most one is returned, never raised. *)
Lemma py_truediv_returns (a b : Z) :
  b <> 0 -> Z.abs a <= Z.abs b ->
  exists m e, py_truediv a b = Returns (Finite m e).
Proof.
  intros Hb Hab. unfold py_truediv.
  destruct (Z.eqb_spec b 0) as [? | _]; [contradiction |].
  unfold round_ratio. destruct (Z.eqb_spec a 0) as [Ha | Ha].
  - unfold zero. eauto.
  - destruct (round_pos_le_one (Z.abs a) (Z.abs b)) as (m & e & Hr & _ & _);
      [lia | lia |].
    rewrite Hr. destruct (Bool.eqb _ _); cbn; eauto.
Qed.

(** A non-negative quotient that is at most [1 - 2^-11] is returned as a
    float in [[0, 1)]. *)
Lemma py_truediv_unit_interval (a b : Z) :
  0 <= a -> 0 < b -> a * 2 ^ 11 <= b * (2 ^ 11 - 1) ->
  exists rel, py_truediv a b = Returns rel /\
              leb zero rel = true /\ ltb rel one = true.
Proof.
  intros Ha Hb Hab. unfold py_truediv.
  destruct (Z.eqb_spec b 0) as [? | _]; [lia |].
  unfold round_ratio. destruct (Z.eqb_spec a 0) as [Ha0 | Ha0].
  - exists zero. repeat split; reflexivity.
  - destruct (round_pos_lt_one (Z.abs a) (Z.abs b)) as (m & e & Hr & He & Hm).
    + lia.
    + rewrite !Z.abs_eq by lia. exact Hab.
    + rewrite Hr.
      assert (Hs : Bool.eqb (a <? 0) (b <? 0) = true).
      { destruct (Z.ltb_spec a 0), (Z.ltb_spec b 0); try lia; reflexivity. }
      rewrite Hs. exists (Finite m e). split; [reflexivity |].
      unfold leb, ltb, zero, one, cmp_finite.
      rewrite !Z.min_r, !Z.min_l by lia.
      rewrite !Z.sub_diag, Z.sub_0_l, Z.mul_0_l, Z.mul_1_l, Z.mul_1_r.
      split.
      * destruct (Z.compare_spec 0 m); try reflexivity; lia.
      * destruct (Z.compare_spec m (2 ^ (- e))); try reflexivity; lia.
Qed.

(** ** The order on floats *)

(** The comparison does not depend on the exponent both sides are brought
    to. *)
Lemma cmp_finite_base (m1 e1 m2 e2 c : Z) :
  c <= e1 -> c <= e2 ->
  cmp_finite m1 e1 m2 e2 = (m1 * 2 ^ (e1 - c) ?= m2 * 2 ^ (e2 - c)).
Proof.
  intros H1 H2. unfold cmp_finite.
  set (b := Z.min e1 e2).
  assert (Hb : c <= b /\ b <= e1 /\ b <= e2) by (unfold b; lia).
  replace (e1 - c) with ((e1 - b) + (b - c)) by lia.
  replace (e2 - c) with ((e2 - b) + (b - c)) by lia.
  rewrite !Z.pow_add_r by lia. rewrite !Z.mul_assoc.
  apply Zmult_compare_compat_r.
  apply Z.lt_gt, Z.pow_pos_nonneg; lia.
Qed.

Lemma ltb_false_leb (a b : float) :
  is_nan a = false -> is_nan b = false -> ltb a b = false -> leb b a = true.
Proof.
  destruct a as [| [|] | m1 e1], b as [| [|] | m2 e2]; cbn; try congruence.
  intros _ _.
  rewrite (cmp_finite_base m1 e1 m2 e2 (Z.min e1 e2)) by lia.
  rewrite (cmp_finite_base m2 e2 m1 e1 (Z.min e1 e2)) by lia.
  rewrite (Z.compare_antisym (m1 * _) (m2 * _)).
  destruct (_ ?= _); cbn; congruence.
Qed.

Lemma ltb_leb (a b : float) : ltb a b = true -> leb a b = true.
Proof.
  destruct a as [| [|] | m1 e1], b as [| [|] | m2 e2]; cbn; try congruence.
  destruct (cmp_finite _ _ _ _); congruence.
Qed.

Lemma leb_trans (a b c : float) :
  leb a b = true -> leb b c = true -> leb a c = true.
Proof.
  destruct a as [| [|] | m1 e1], b as [| [|] | m2 e2], c as [| [|] | m3 e3];
    cbn; try congruence.
  set (base := Z.min e1 (Z.min e2 e3)).
  rewrite (cmp_finite_base m1 e1 m2 e2 base) by (unfold base; lia).
  rewrite (cmp_finite_base m2 e2 m3 e3 base) by (unfold base; lia).
  rewrite (cmp_finite_base m1 e1 m3 e3 base) by (unfold base; lia).
  destruct (Z.compare_spec (m1 * 2 ^ (e1 - base)) (m2 * 2 ^ (e2 - base)));
    destruct (Z.compare_spec (m2 * 2 ^ (e2 - base)) (m3 * 2 ^ (e3 - base)));
    destruct (Z.compare_spec (m1 * 2 ^ (e1 - base)) (m3 * 2 ^ (e3 - base)));
    try congruence; lia.
Qed.

Lemma leb_refl (a : float) : is_nan a = false -> leb a a = true.
Proof.
  destruct a as [| [|] | m e]; cbn; try congruence.
  intros _. unfold cmp_finite. rewrite Z.compare_refl. reflexivity.
Qed.

(** Every finite float is below the sentinel [float('inf')]. *)
Lemma finite_ltb_infinity (m e : Z) : ltb (Finite m e) infinity = true.
Proof. reflexivity. Qed.

(** * Brackets of integer powers *)

(** A strict bracket [z^n < s < (z+1)^n] has [z] and [s] of the same sign:
    either both are non-negative or, for an odd exponent, both are
    negative. *)
Lemma bracket_sign (z n s : Z) :
  0 <= n -> z ^ n < s -> s < (z + 1) ^ n ->
  (0 <= z /\ 0 <= z ^ n /\ 0 < s) \/ (z <= -1 /\ s < 0 /\ (z + 1) ^ n <= 0).
Proof.
  intros Hn Hlo Hhi.
  destruct (Z_le_gt_dec 0 z) as [Hz | Hz].
  - left. pose proof (Z.pow_nonneg z n Hz). lia.
  - right.
    assert (Hn1 : 0 < n).
    { destruct (Z.eq_dec n 0) as [-> | ]; [| lia].
      rewrite !Z.pow_0_r in *. lia. }
    set (u := - (z + 1)).
    assert (Hu : 0 <= u) by (unfold u; lia).
    replace (z + 1) with (- u) in * by (unfold u; lia).
    replace z with (- (u + 1)) in Hlo by (unfold u; lia).
    pose proof (Z.pow_le_mono_l u (u + 1) n ltac:(lia)) as Hmono.
    pose proof (Z.pow_nonneg u n Hu) as Hun.
    destruct (Z.Even_or_Odd n) as [He | Ho].
    + rewrite Z.pow_opp_even in * by assumption. lia.
    + rewrite Z.pow_opp_odd in * by assumption. lia.
Qed.

(** The selected miss is never larger, in absolute value, than the sum. *)
Lemma bracket_miss_bounded (z n s : Z) :
  0 <= n -> z ^ n < s -> s < (z + 1) ^ n ->
  s <> 0 /\ 0 < s - z ^ n /\ 0 < (z + 1) ^ n - s /\
  Z.abs (Z.min (s - z ^ n) ((z + 1) ^ n - s)) <= Z.abs s.
Proof.
  intros Hn Hlo Hhi.
  destruct (bracket_sign z n s Hn Hlo Hhi) as [(Hz & Hp & Hs) | (Hz & Hs & Hp)]; lia.
Qed.

(** For a sum of two powers of integers from 10 on, the lower end of the
    bracket is at least the 2^11-th part of the sum. *)
Lemma bracket_lower_share (x y z n : Z) :
  10 <= x -> 10 <= y -> 3 <= n <= 11 ->
  z ^ n < x ^ n + y ^ n -> x ^ n + y ^ n < (z + 1) ^ n ->
  1 <= z /\ 0 < x ^ n + y ^ n /\ x ^ n + y ^ n < 2 ^ 11 * z ^ n.
Proof.
  intros Hx Hy Hn Hlo Hhi.
  assert (Hxn : 1 <= x ^ n).
  { pose proof (Z.pow_pos_nonneg x n ltac:(lia) ltac:(lia)). lia. }
  assert (Hyn : 1 <= y ^ n).
  { pose proof (Z.pow_pos_nonneg y n ltac:(lia) ltac:(lia)). lia. }
  set (s := x ^ n + y ^ n) in *.
  assert (Hz : 1 <= z).
  { destruct (bracket_sign z n s ltac:(lia) Hlo Hhi) as [(Hz & _ & _) | (_ & Hs & _)];
      [| lia].
    destruct (Z.eq_dec z 0) as [-> | ]; [| lia].
    rewrite Z.pow_1_l in Hhi by lia. lia. }
  split; [exact Hz |]. split; [lia |].
  assert (Hzn : 0 < z ^ n) by (apply Z.pow_pos_nonneg; lia).
  pose proof (Z.pow_le_mono_l (z + 1) (2 * z) n ltac:(lia)) as Hd.
  rewrite Z.pow_mul_l in Hd.
  pose proof (Z.pow_le_mono_r 2 n 11 ltac:(lia) ltac:(lia)) as H2.
  pose proof (Z.pow_pos_nonneg 2 n ltac:(lia) ltac:(lia)) as H2p.
  nia.
Qed.

(** * The miss evaluator *)

(** C4: under a strict bracket [z^n < x^n + y^n < (z+1)^n] (integer powers,
    so [0 <= n]), [calculate_miss] selects the lower miss and reports
    [True] whenever the lower miss is less than or equal to the upper one,
    ties included; otherwise it selects the upper miss and reports
    [False].  The relative miss is the selected one divided by the sum. *)
Theorem calculate_miss_tie_break (x y z n : Z) :
  0 <= n ->
  z ^ n < x ^ n + y ^ n < (z + 1) ^ n ->
  let sum_value := x ^ n + y ^ n in
  let lower_miss := sum_value - z ^ n in
  let upper_miss := (z + 1) ^ n - sum_value in
  (lower_miss <= upper_miss ->
   exists rel, py_truediv lower_miss sum_value = Returns rel /\
               calculate_miss x y z n = Returns (lower_miss, rel, true)) /\
  (upper_miss < lower_miss ->
   exists rel, py_truediv upper_miss sum_value = Returns rel /\
               calculate_miss x y z n = Returns (upper_miss, rel, false)).
Proof.
  intros Hn [Hlo Hhi] sum_value lower_miss upper_miss.
  destruct (bracket_miss_bounded z n sum_value Hn Hlo Hhi)
    as (Hs & Hl & Hu & Hmin).
  fold lower_miss upper_miss in Hl, Hu, Hmin.
  unfold calculate_miss. fold sum_value lower_miss upper_miss.
  split; intros Hcmp.
  - destruct (py_truediv_returns lower_miss sum_value Hs) as (m & e & Hd);
      [lia |].
    exists (Finite m e). split; [exact Hd |].
    apply Z.leb_le in Hcmp. rewrite Hcmp, Hd. reflexivity.
  - destruct (py_truediv_returns upper_miss sum_value Hs) as (m & e & Hd);
      [lia |].
    exists (Finite m e). split; [exact Hd |].
    apply Z.leb_gt in Hcmp. rewrite Hcmp, Hd. reflexivity.
Qed.

Lemma calculate_miss_tie_break_witness :
  (0 <= 3 /\ 12 ^ 3 < 10 ^ 3 + 10 ^ 3 < (12 + 1) ^ 3) /\
  exists rel, calculate_miss 10 10 12 3 = Returns (197, rel, false).
Proof.
  assert (H0 : 0 <= 3) by lia.
  assert (Hb : 12 ^ 3 < 10 ^ 3 + 10 ^ 3 < (12 + 1) ^ 3) by (cbn; lia).
  split; [split; assumption |].
  destruct (calculate_miss_tie_break 10 10 12 3 H0 Hb) as [_ Hupper].
  destruct Hupper as (rel & _ & Hrel); [cbn; lia |].
  exists rel. exact Hrel.
Defined.

(** C2: for [x, y >= 10], [3 <= n <= 11] and a strict bracket
    [z^n < x^n + y^n < (z+1)^n], [calculate_miss] returns as absolute miss
    the minimum of the two differences, which is not negative, and as
    relative miss that absolute miss divided (as floats are) by the sum
    [x^n + y^n] it recomputes, a float in [[0, 1)]. *)
Theorem calculate_miss_min_and_relative (x y z n : Z) :
  10 <= x -> 10 <= y -> 3 <= n <= 11 ->
  z ^ n < x ^ n + y ^ n < (z + 1) ^ n ->
  exists abs_miss rel_miss closer,
    calculate_miss x y z n = Returns (abs_miss, rel_miss, closer) /\
    abs_miss = Z.min (x ^ n + y ^ n - z ^ n) ((z + 1) ^ n - (x ^ n + y ^ n)) /\
    0 <= abs_miss /\
    py_truediv abs_miss (x ^ n + y ^ n) = Returns rel_miss /\
    leb zero rel_miss = true /\ ltb rel_miss one = true.
Proof.
  intros Hx Hy Hn [Hlo Hhi].
  destruct (bracket_lower_share x y z n Hx Hy Hn Hlo Hhi) as (Hz & Hs & Hshare).
  set (s := x ^ n + y ^ n) in *.
  set (abs_miss := Z.min (s - z ^ n) ((z + 1) ^ n - s)).
  assert (Habs : 0 <= abs_miss) by (unfold abs_miss; lia).
  destruct (py_truediv_unit_interval abs_miss s Habs Hs) as (rel & Hd & H0 & H1).
  { unfold abs_miss. change (2 ^ 11) with 2048 in *. lia. }
  unfold calculate_miss. fold s.
  destruct (Z.leb_spec (s - z ^ n) ((z + 1) ^ n - s)) as [Hc | Hc].
  - exists abs_miss, rel, true.
    replace (s - z ^ n) with abs_miss by (unfold abs_miss; lia).
    rewrite Hd. cbn. repeat split; try assumption; reflexivity.
  - exists abs_miss, rel, false.
    replace ((z + 1) ^ n - s) with abs_miss by (unfold abs_miss; lia).
    rewrite Hd. cbn. repeat split; try assumption; reflexivity.
Qed.

Lemma calculate_miss_min_and_relative_witness :
  (10 <= 10 /\ 3 <= 3 <= 11 /\ 12 ^ 3 < 10 ^ 3 + 10 ^ 3 < (12 + 1) ^ 3) /\
  exists abs_miss rel_miss closer,
    calculate_miss 10 10 12 3 = Returns (abs_miss, rel_miss, closer) /\
    abs_miss = 197 /\ ltb rel_miss one = true.
Proof.
  assert (Hx : 10 <= 10) by lia.
  assert (Hn : 3 <= 3 <= 11) by lia.
  assert (Hb : 12 ^ 3 < 10 ^ 3 + 10 ^ 3 < (12 + 1) ^ 3) by (cbn; lia).
  split; [exact (conj Hx (conj Hn Hb)) |].
  destruct (calculate_miss_min_and_relative 10 10 12 3 Hx Hx Hn Hb)
    as (a & r & c & Hm & Ha & _ & _ & _ & H1).
  exists a, r, c. repeat split; assumption.
Defined.

(** * The bracketer *)

(** Truncating a float that lies in [[lo, hi)] gives an integer of that
    interval. *)
Lemma trunc_between (lo hi m e : Z) :
  0 <= lo ->
  leb (Finite lo 0) (Finite m e) = true ->
  ltb (Finite m e) (Finite hi 0) = true ->
  lo <= trunc m e < hi.
Proof.
  intros Hlo Hle Hlt. unfold leb in Hle. unfold ltb in Hlt. unfold trunc.
  destruct (Z.leb_spec 0 e) as [He | He].
  - rewrite (cmp_finite_base lo 0 m e 0) in Hle by lia.
    rewrite (cmp_finite_base m e hi 0 0) in Hlt by lia.
    rewrite !Z.sub_0_r, Z.pow_0_r, Z.mul_1_r in Hle, Hlt.
    destruct (Z.compare_spec lo (m * 2 ^ e)); try discriminate;
      destruct (Z.compare_spec (m * 2 ^ e) hi); try discriminate; lia.
  - rewrite (cmp_finite_base lo 0 m e e) in Hle by lia.
    rewrite (cmp_finite_base m e hi 0 e) in Hlt by lia.
    rewrite Z.sub_diag, Z.pow_0_r, Z.mul_1_r, Z.sub_0_l in Hle, Hlt.
    set (P := 2 ^ (- e)) in *.
    assert (HP : 0 < P) by (apply Z.pow_pos_nonneg; lia).
    assert (Hm : lo * P <= m < hi * P).
    { destruct (Z.compare_spec (lo * P) m); try discriminate;
        destruct (Z.compare_spec m (hi * P)); try discriminate; lia. }
    rewrite Z.quot_div_nonneg by nia.
    split.
    + apply Z.div_le_lower_bound; lia.
    + apply Z.div_lt_upper_bound; lia.
Qed.

Section Bracketer.

Variable libm_pow : float -> float -> float.

Lemma calculate_z_value_estimate (sum_value n : Z) :
  calculate_z_value libm_pow sum_value n =
  (z <- float_root_estimate libm_pow sum_value n ;;
   Returns (if sum_value <=? z ^ n then z - 1 else z)).
Proof.
  unfold calculate_z_value, float_root_estimate.
  destruct (py_truediv 1 n) as [inv_n |]; [| reflexivity]. cbn.
  destruct (py_pow libm_pow sum_value inv_n); reflexivity.
Qed.


End Bracketer.

(** C8: for [n = 3], [x = y = 10] the sum is 2000; with a C library whose
    [pow(2000.0, 1/3)] lies in [[12, 14)] (the real root is 12.599...),
    [calculate_z_value(2000, 3)] returns 12, as 12^3 = 1728 < 2000 < 2197 =
    13^3; [calculate_miss(10, 10, 12, 3)] has lower miss 272, upper miss
    197, selects the upper one with [False], and the relative miss is the
    float nearest to 197/2000, the same float as 0.0985. *)
Theorem scenario_n3_x10_y10 (libm_pow : float -> float -> float) :
  leb (Finite 12 0) (libm_pow float_2000 float_third) = true ->
  ltb (libm_pow float_2000 float_third) (Finite 14 0) = true ->
  10 ^ 3 + 10 ^ 3 = 2000 /\
  calculate_z_value libm_pow 2000 3 = Returns 12 /\
  (12 ^ 3 = 1728 /\ 1728 < 2000 /\ 2000 < 2197 /\ 13 ^ 3 = 2197) /\
  (2000 - 12 ^ 3 = 272 /\ 13 ^ 3 - 2000 = 197) /\
  calculate_miss 10 10 12 3 = Returns (197, round_ratio 197 2000, false) /\
  py_truediv 197 2000 = Returns (round_ratio 197 2000) /\
  round_ratio 197 2000 = round_ratio 985 10000.
Proof.
  intros Hle Hlt.
  split; [reflexivity |]. split.
  - assert (Hinv : py_truediv 1 3 = Returns float_third) by (vm_compute; reflexivity).
    assert (Hconv : py_float_of_int 2000 = Returns float_2000)
      by (vm_compute; reflexivity).
    unfold calculate_z_value, py_pow. rewrite Hinv. cbn [bind].
    rewrite Hconv. cbn [bind].
    assert (Hpow : py_float_pow libm_pow float_2000 float_third =
                   call_libm_pow libm_pow float_2000 float_third false) by reflexivity.
    rewrite Hpow. unfold call_libm_pow.
    destruct (libm_pow float_2000 float_third) as [| s | m e].
    + discriminate Hle.
    + destruct s; discriminate.
    + cbn [bind py_int].
      pose proof (trunc_between 12 14 m e ltac:(lia) Hle Hlt) as Ht.
      assert (Hz : trunc m e = 12 \/ trunc m e = 13) by lia.
      destruct Hz as [-> | ->]; reflexivity.
  - repeat split; vm_compute; reflexivity.
Qed.

Lemma scenario_n3_x10_y10_witness :
  (leb (Finite 12 0) (Sample.sample_pow float_2000 float_third) = true /\
   ltb (Sample.sample_pow float_2000 float_third) (Finite 14 0) = true) /\
  calculate_z_value Sample.sample_pow 2000 3 = Returns 12.
Proof.
  assert (Hle : leb (Finite 12 0) (Sample.sample_pow float_2000 float_third) = true)
    by (vm_compute; reflexivity).
  assert (Hlt : ltb (Sample.sample_pow float_2000 float_third) (Finite 14 0) = true)
    by (vm_compute; reflexivity).
  split; [exact (conj Hle Hlt) |].
  exact (proj1 (proj2 (scenario_n3_x10_y10 Sample.sample_pow Hle Hlt))).
Defined.

(** * The enumeration *)

Lemma py_range_In (lo hi x : Z) : In x (py_range lo hi) <-> lo <= x < hi.
Proof.
  unfold py_range. rewrite in_map_iff. split.
  - intros (i & <- & Hi). apply in_seq in Hi. lia.
  - intros Hx. exists (Z.to_nat (x - lo)). split; [lia |].
    apply in_seq. lia.
Qed.




Lemma py_range_first (lo hi : Z) :
  lo < hi -> exists rest, py_range lo hi = lo :: rest.
Proof.
  intros H. unfold py_range.
  destruct (Z.to_nat (hi - lo)) as [| m] eqn:Hm; [lia |].
  cbn [seq map]. rewrite Z.add_0_r. eauto.
Qed.

Lemma grid_In (k x y : Z) :
  In (x, y) (grid k) <-> (10 <= x <= k /\ 10 <= y <= k).
Proof.
  unfold grid. rewrite in_flat_map. split.
  - intros (x' & Hx & Hy). apply in_map_iff in Hy.
    destruct Hy as (y' & [= <- <-] & Hy).
    apply py_range_In in Hx, Hy. lia.
  - intros [Hx Hy]. exists x. split; [apply py_range_In; lia |].
    apply in_map. apply py_range_In. lia.
Qed.





Lemma grid_first (k : Z) : 10 <= k -> exists rest, grid k = (10, 10) :: rest.
Proof.
  intros Hk. unfold grid.
  destruct (py_range_first 10 (k + 1)) as (rest & ->); [lia |].
  cbn [flat_map map app]. eauto.
Qed.

(** * Loops *)

Lemma for_each_app {A S : Type} (body : A -> S -> result S) (l1 l2 : list A) (st : S) :
  for_each body (l1 ++ l2) st =
  (st' <- for_each body l1 st ;; for_each body l2 st').
Proof.
  revert st. induction l1 as [| a l1 IH]; intros st; [reflexivity |].
  cbn [app for_each]. destruct (body a st) as [st1 |]; [| reflexivity].
  cbn [bind]. apply IH.
Qed.

Lemma for_each_map {A B S : Type} (f : A -> B) (body : B -> S -> result S)
    (l : list A) (st : S) :
  for_each body (map f l) st = for_each (fun a => body (f a)) l st.
Proof.
  revert st. induction l as [| a l IH]; intros st; [reflexivity |].
  cbn [map for_each]. destruct (body (f a) st); [| reflexivity].
  cbn [bind]. apply IH.
Qed.

(** Two nested loops are one loop over the pairs. *)
Lemma for_each_nested {A B S : Type} (body : A -> B -> S -> result S)
    (xs : list A) (ys : list B) (st : S) :
  for_each (fun x => for_each (body x) ys) xs st =
  for_each (fun p => body (fst p) (snd p))
    (flat_map (fun x => map (pair x) ys) xs) st.
Proof.
  revert st. induction xs as [| x xs IH]; intros st; [reflexivity |].
  cbn [flat_map for_each]. rewrite for_each_app, for_each_map. cbn [fst snd].
  destruct (for_each (body x) ys st) as [st1 |]; [| reflexivity].
  cbn [bind]. apply IH.
Qed.

(** An invariant that speaks of the items already processed: partial
    correctness of a loop. *)
Lemma for_each_invariant {A S : Type} (body : A -> S -> result S)
    (Inv : list A -> S -> Prop) (whole : list A) :
  (forall done a rest st st',
      whole = done ++ a :: rest -> Inv done st ->
      body a st = Returns st' -> Inv (done ++ [a]) st') ->
  forall st st', Inv [] st -> for_each body whole st = Returns st' -> Inv whole st'.
Proof.
  intros Hstep.
  assert (Hgen : forall rest done st st',
             whole = done ++ rest -> Inv done st ->
             for_each body rest st = Returns st' -> Inv whole st').
  { induction rest as [| a rest IH]; intros done st st' Hw Hinv Hrun.
    - cbn in Hrun. injection Hrun as <-. rewrite app_nil_r in Hw. subst. exact Hinv.
    - cbn [for_each] in Hrun.
      destruct (body a st) as [st1 |] eqn:Hb; [| discriminate].
      cbn [bind] in Hrun.
      apply (IH (done ++ [a]) st1 st'); [| | exact Hrun].
      + rewrite <- app_assoc. exact Hw.
      + eapply Hstep; eassumption. }
  intros st st' Hinv Hrun. exact (Hgen whole [] st st' eq_refl Hinv Hrun).
Qed.


(** A loop stops at the first item whose body raises. *)
Lemma for_each_raises {A S : Type} (body : A -> S -> result S) (l : list A) (a : A) :
  In a l -> (forall st, exists e, body a st = Raises e) ->
  forall st, exists e, for_each body l st = Raises e.
Proof.
  intros Hin Hbad. induction l as [| b l IH]; [contradiction |].
  intros st. cbn [for_each].
  destruct (body b st) as [st1 |] eqn:Hb; [| cbn [bind]; eauto].
  cbn [bind]. destruct Hin as [-> | Hin].
  - destruct (Hbad st) as (e & He). congruence.
  - apply IH, Hin.
Qed.

Lemma for_each_related {A S T : Type} (R : S -> T -> Prop)
    (body1 : A -> S -> result S) (body2 : A -> T -> result T) (l : list A) :
  (forall a s t, R s t -> result_rel R (body1 a s) (body2 a t)) ->
  forall s t, R s t -> result_rel R (for_each body1 l s) (for_each body2 l t).
Proof.
  intros Hbody. induction l as [| a l IH]; intros s t Hst; [exact Hst |].
  cbn [for_each]. specialize (Hbody a s t Hst).
  destruct (body1 a s) as [s1 |], (body2 a t) as [t1 |]; cbn in Hbody |- *;
    try contradiction; [apply IH, Hbody | exact Hbody].
Qed.

(** * The search driver *)

Section Search.

Variable libm_pow : float -> float -> float.
Variable clock : nat -> float.

Lemma evaluates_finite n x y z abs_miss rel_miss is_lower_z :
  evaluates libm_pow n x y z abs_miss rel_miss is_lower_z ->
  exists m e, rel_miss = Finite m e.
Proof.
  intros [_ Hm]. unfold calculate_miss in Hm.
  destruct (_ <=? _);
    [destruct (py_truediv (x ^ n + y ^ n - z ^ n) (x ^ n + y ^ n)) as [r |] eqn:Hd
    |destruct (py_truediv ((z + 1) ^ n - (x ^ n + y ^ n)) (x ^ n + y ^ n)) as [r |] eqn:Hd];
    cbn in Hm; try discriminate; injection Hm as <- <- <-;
    apply py_truediv_finite in Hd; exact Hd.
Qed.

Lemma report_progress_keeps total start st st' :
  report_progress clock total start st = Returns st' ->
  best_relative_miss st' = best_relative_miss st /\
  best_result st' = best_result st /\
  combinations_checked st' = combinations_checked st.
Proof.
  unfold report_progress. destruct (_ =? 0).
  - destruct (py_truediv _ _); cbn; [| discriminate].
    intros [= <-]. cbn. auto.
  - intros [= <-]. auto.
Qed.

(** One iteration: the candidate is evaluated, the counter goes up by one,
    and the best changes exactly when the candidate's relative miss is
    strictly below it. *)
Lemma visit_spec n total start x y st st' :
  visit libm_pow clock n total start x y st = Returns st' ->
  exists z abs_miss rel_miss is_lower_z,
    evaluates libm_pow n x y z abs_miss rel_miss is_lower_z /\
    combinations_checked st' = combinations_checked st + 1 /\
    ((ltb rel_miss (best_relative_miss st) = true /\
      best_relative_miss st' = rel_miss /\
      best_result st' =
        Some (x, y, (if is_lower_z then z else z + 1), abs_miss, rel_miss)) \/
     (ltb rel_miss (best_relative_miss st) = false /\
      best_relative_miss st' = best_relative_miss st /\
      best_result st' = best_result st)).
Proof.
  unfold visit.
  destruct (calculate_z_value libm_pow (x ^ n + y ^ n) n) as [z |] eqn:Hz;
    [| discriminate].
  cbn [bind].
  destruct (calculate_miss x y z n) as [[[abs_miss rel_miss] is_lower_z] |] eqn:Hm;
    [| discriminate].
  cbn [bind]. unfold update_best.
  destruct (ltb rel_miss (best_relative_miss st)) eqn:Hlt.
  - destruct (py_truediv (combinations_checked st + 1) total); [| discriminate].
    cbn [bind]. intros Hp. apply report_progress_keeps in Hp.
    cbn in Hp. destruct Hp as (H1 & H2 & H3).
    exists z, abs_miss, rel_miss, is_lower_z.
    split; [split; assumption |]. split; [exact H3 |]. left. auto.
  - cbn [bind]. intros Hp. apply report_progress_keeps in Hp.
    cbn in Hp. destruct Hp as (H1 & H2 & H3).
    exists z, abs_miss, rel_miss, is_lower_z.
    split; [split; assumption |]. split; [exact H3 |]. right. auto.
Qed.

Lemma search_inv_initial n k : search_inv libm_pow n [] (initial_state n k).
Proof.
  unfold search_inv, initial_state. cbn.
  repeat split; try reflexivity. intros x y [].
Qed.

Lemma search_inv_step n total start done x y st st' :
  search_inv libm_pow n done st ->
  visit libm_pow clock n total start x y st = Returns st' ->
  search_inv libm_pow n (done ++ [(x, y)]) st'.
Proof.
  intros (Hcount & Hnan & Hall & Hbest) Hv.
  apply visit_spec in Hv.
  destruct Hv as (z & abs_miss & rel_miss & is_lower_z & Hev & Hc & Hupd).
  destruct (evaluates_finite _ _ _ _ _ _ _ Hev) as (m & e & Hshape).
  assert (Hfin : is_nan rel_miss = false) by (rewrite Hshape; reflexivity).
  unfold search_inv. rewrite length_app, Hc, Hcount. cbn [length].
  split; [lia |].
  destruct Hupd as [(Hlt & Hb & Hr) | (Hlt & Hb & Hr)]; rewrite Hb, Hr.
  - split; [exact Hfin |]. split.
    + intros x' y' Hin. apply in_app_or in Hin. cbn [In] in Hin.
      destruct Hin as [Hin | [Heq | []]]; [| injection Heq as <- <-].
      * destruct (Hall x' y' Hin) as (z' & a' & r' & f' & Hev' & Hle).
        exists z', a', r', f'. split; [exact Hev' |].
        eapply leb_trans; [apply ltb_leb, Hlt | exact Hle].
      * exists z, abs_miss, rel_miss, is_lower_z. split; [exact Hev |].
        apply leb_refl, Hfin.
    + split; [reflexivity |]. split; [apply in_or_app; right; left; reflexivity |].
      exists z, is_lower_z. split; [exact Hev | reflexivity].
  - split; [exact Hnan |]. split.
    + intros x' y' Hin. apply in_app_or in Hin. cbn [In] in Hin.
      destruct Hin as [Hin | [Heq | []]]; [| injection Heq as <- <-].
      * apply Hall, Hin.
      * exists z, abs_miss, rel_miss, is_lower_z. split; [exact Hev |].
        apply ltb_false_leb; assumption.
    + destruct (best_result st) as [[[[[bx by_] bz] ba] br] |].
      * destruct Hbest as (H1 & H2 & H3). split; [exact H1 |].
        split; [apply in_or_app; left; exact H2 | exact H3].
      * destruct Hbest as [_ Hinf]. rewrite Hinf, Hshape in Hlt. discriminate Hlt.
Qed.

Lemma search_loops_flat n k total start st :
  search_loops libm_pow clock n k total start st =
  for_each (fun p => visit libm_pow clock n total start (fst p) (snd p)) (grid k) st.
Proof. unfold search_loops, grid. apply for_each_nested. Qed.

(** At the end of the loops the invariant holds for the whole grid. *)
Lemma search_loops_inv n k total start st' :
  search_loops libm_pow clock n k total start (initial_state n k) = Returns st' ->
  search_inv libm_pow n (grid k) st'.
Proof.
  rewrite search_loops_flat. intros Hrun.
  refine (for_each_invariant _ (search_inv libm_pow n) (grid k) _ _ _ (search_inv_initial n k) Hrun).
  intros done [x y] rest st st1 _ Hinv Hv. cbn [fst snd] in Hv.
  eapply search_inv_step; eassumption.
Qed.

Lemma find_near_misses_inv n k out :
  find_near_misses libm_pow clock n k = Returns out ->
  search_inv libm_pow n (grid k) (final_state out) /\
  report out = summarize n (best_result (final_state out)) /\
  total_checked out = combinations_checked (final_state out).
Proof.
  unfold find_near_misses.
  destruct (search_loops _ _ _ _ _ _ _) as [st |] eqn:Hrun; [| discriminate].
  cbn [bind]. intros [= <-]. cbn.
  split; [exact (search_loops_inv _ _ _ _ _ Hrun) | split; reflexivity].
Qed.

End Search.

(** C5: when [find_near_misses n k] has gone through all the candidates,
    the record it reports is that of a candidate of the grid, and its
    relative miss is less than or equal to the relative miss of every
    candidate [(x', y')] with [10 <= x', y' <= k]; and in each iteration the
    best is replaced exactly when the candidate's relative miss is strictly
    smaller than the current best, and is left untouched otherwise. *)
Theorem best_is_minimal (libm_pow : float -> float -> float) (clock : nat -> float)
    (n k : Z) (out : search_outcome) :
  3 <= n <= 11 -> 10 < k ->
  find_near_misses libm_pow clock n k = Returns out ->
  (exists x y best_z abs_miss rel_miss,
      report out = BestNearMiss x y best_z (x ^ n + y ^ n) (best_z ^ n) abs_miss rel_miss /\
      best_result (final_state out) = Some (x, y, best_z, abs_miss, rel_miss) /\
      (10 <= x <= k /\ 10 <= y <= k) /\
      forall x' y', 10 <= x' <= k -> 10 <= y' <= k ->
        exists z' abs_miss' rel_miss' is_lower_z',
          evaluates libm_pow n x' y' z' abs_miss' rel_miss' is_lower_z' /\
          leb rel_miss rel_miss' = true) /\
  (forall total start x y st st',
      visit libm_pow clock n total start x y st = Returns st' ->
      exists z abs_miss rel_miss is_lower_z,
        evaluates libm_pow n x y z abs_miss rel_miss is_lower_z /\
        ((ltb rel_miss (best_relative_miss st) = true /\
          best_relative_miss st' = rel_miss /\
          best_result st' =
            Some (x, y, (if is_lower_z then z else z + 1), abs_miss, rel_miss)) \/
         (ltb rel_miss (best_relative_miss st) = false /\
          best_relative_miss st' = best_relative_miss st /\
          best_result st' = best_result st))).
Proof.
  intros Hn Hk Hrun. split.
  - destruct (find_near_misses_inv _ _ _ _ _ Hrun) as ((_ & _ & Hall & Hbest) & Hrep & _).
    destruct (best_result (final_state out)) as [[[[[x y] bz] a] r] |] eqn:Hb.
    + destruct Hbest as (Hr & Hin & _).
      exists x, y, bz, a, r. split; [exact Hrep |]. split; [reflexivity |].
      split; [apply grid_In, Hin |].
      intros x' y' Hx' Hy'. rewrite Hr. apply Hall, grid_In. split; assumption.
    + destruct Hbest as [Hnil _].
      destruct (grid_first k) as (rest & Hg); [lia |]. congruence.
  - intros total start x y st st' Hv.
    destruct (visit_spec _ _ _ _ _ _ _ _ _ Hv) as (z & a & r & f & Hev & _ & Hupd).
    exists z, a, r, f. split; assumption.
Qed.


(** ** When the search returns *)



Section SearchReturns.

Variable libm_pow : float -> float -> float.
Variable clock : nat -> float.



End SearchReturns.


(** ** Determinism *)

Lemma visit_same_search (libm_pow : float -> float -> float)
    (clock1 clock2 : nat -> float) n total start1 start2 x y s t :
  same_search s t ->
  result_rel same_search
    (visit libm_pow clock1 n total start1 x y s)
    (visit libm_pow clock2 n total start2 x y t).
Proof.
  intros (Hb & Hr & Hc). unfold visit. rewrite Hc.
  destruct (calculate_z_value libm_pow (x ^ n + y ^ n) n) as [z |]; [| reflexivity].
  cbn [bind].
  destruct (calculate_miss x y z n) as [[[a r] f] |]; [| reflexivity].
  cbn [bind]. unfold update_best. rewrite Hb.
  destruct (ltb r (best_relative_miss t)).
  - destruct (py_truediv (combinations_checked t + 1) total) as [fr |] eqn:Hd;
      [| reflexivity].
    cbn [bind]. unfold report_progress. cbn.
    destruct (_ =? 0); [rewrite Hd |]; cbn; repeat split; reflexivity.
  - cbn [bind]. unfold report_progress. cbn.
    destruct (_ =? 0); [destruct (py_truediv _ _) |]; cbn;
      repeat split; try reflexivity; assumption.
Qed.

(** C9: the result of a search depends on [(n, k)] only (and on the C
    library): two runs that read different clocks either both return, with
    the same final report, the same best record [(x, y, z, absolute miss,
    relative miss)] and the same count, or both raise the same exception. *)
Theorem search_is_deterministic (libm_pow : float -> float -> float)
    (clock1 clock2 : nat -> float) (n k : Z) :
  result_rel (fun out1 out2 => untimed out1 = untimed out2)
    (find_near_misses libm_pow clock1 n k)
    (find_near_misses libm_pow clock2 n k).
Proof.
  unfold find_near_misses. rewrite !search_loops_flat.
  pose proof (for_each_related same_search
                (fun p => visit libm_pow clock1 n ((k - 9) * (k - 9)) (clock1 0%nat) (fst p) (snd p))
                (fun p => visit libm_pow clock2 n ((k - 9) * (k - 9)) (clock2 0%nat) (fst p) (snd p))
                (grid k)
                (fun a s t H => visit_same_search libm_pow clock1 clock2 n _ _ _ _ _ s t H)
                (initial_state n k) (initial_state n k)
                (conj eq_refl (conj eq_refl eq_refl))) as Hrel.
  destruct (for_each _ (grid k) (initial_state n k)) as [s |];
    destruct (for_each _ (grid k) (initial_state n k)) as [t |];
    cbn in Hrel |- *; try contradiction; [| exact Hrel].
  destruct Hrel as (Hb & Hr & Hc). unfold untimed. cbn. rewrite Hb, Hr, Hc. reflexivity.
Qed.

(** * Overflow of the floating-point root *)

Lemma py_float_of_int_overflow (a : Z) :
  overflow_threshold <= a -> py_float_of_int a = Raises OverflowError.
Proof.
  intros Ha. unfold py_float_of_int, round_ratio.
  assert (Hpos : 0 < a).
  { unfold overflow_threshold in Ha. pose proof (Z.pow_pos_nonneg 2 1024). lia. }
  destruct (Z.eqb_spec a 0) as [? | _]; [lia |].
  rewrite (Z.abs_eq a) by lia. change (Z.abs 1) with 1.
  rewrite (round_pos_int_overflow a Ha).
  destruct (Z.ltb_spec a 0); [lia |]. reflexivity.
Qed.

(** C10: [calculate_z_value] is not total.  For an exponent [3 <= n <= 11]
    and a sum of 2^1024 or more, the conversion of the integer to a float
    that [sum_value ** (1/n)] starts with raises [OverflowError], whatever
    the C library's [pow] is; the loop body raises with it, so the search
    does not evaluate the candidate and a search whose grid holds one ends
    in an exception.  Such sums are sums of two 11th powers:
    [(2^93)^11 + (2^93)^11 = 2^1024]. *)
Theorem calculate_z_value_overflows (libm_pow : float -> float -> float)
    (clock : nat -> float) :
  (forall sum_value n, 3 <= n <= 11 -> 2 ^ 1024 <= sum_value ->
     calculate_z_value libm_pow sum_value n = Raises OverflowError) /\
  (forall n total start x y st, 3 <= n <= 11 -> 2 ^ 1024 <= x ^ n + y ^ n ->
     visit libm_pow clock n total start x y st = Raises OverflowError) /\
  (forall n k, 3 <= n <= 11 -> 10 <= k -> 2 ^ 1024 <= 10 ^ n + k ^ n ->
     exists e, find_near_misses libm_pow clock n k = Raises e) /\
  (2 ^ 93) ^ 11 + (2 ^ 93) ^ 11 = 2 ^ 1024.
Proof.
  assert (Hz : forall sum_value n, 3 <= n <= 11 -> 2 ^ 1024 <= sum_value ->
             calculate_z_value libm_pow sum_value n = Raises OverflowError).
  { intros sum_value n Hn Hs. unfold calculate_z_value, py_pow.
    destruct (py_truediv_returns 1 n) as (m & e & Hd); [lia | lia |].
    rewrite Hd. cbn [bind].
    rewrite (py_float_of_int_overflow sum_value Hs). reflexivity. }
  assert (Hv : forall n total start x y st, 3 <= n <= 11 -> 2 ^ 1024 <= x ^ n + y ^ n ->
             visit libm_pow clock n total start x y st = Raises OverflowError).
  { intros n total start x y st Hn Hs. unfold visit.
    rewrite (Hz _ n Hn Hs). reflexivity. }
  split; [exact Hz |]. split; [exact Hv |]. split.
  - intros n k Hn Hk Hs. unfold find_near_misses. rewrite search_loops_flat.
    destruct (for_each_raises
                (fun p => visit libm_pow clock n ((k - 9) * (k - 9)) (clock 0%nat)
                            (fst p) (snd p))
                (grid k) (10, k)) with (st := initial_state n k) as (e & He).
    + apply grid_In. lia.
    + intros st. exists OverflowError. cbn [fst snd]. apply Hv; assumption.
    + exists e. rewrite He. reflexivity.
  - rewrite <- Z.pow_mul_r by lia. change (93 * 11) with 1023.
    change 1024 with (1023 + 1). rewrite (Z.pow_add_r 2 1023 1) by lia. lia.
Qed.

(** C1, on the input [sum_value = 2^1024 = (2^93)^11 + (2^93)^11],
    [n = 11]: the docstring promises an integer [z] with
    [z^n < sum_value < (z+1)^n]; the call raises [OverflowError] and returns
    no [z] at all, whatever the C library's [pow] is. *)
Theorem bracket_fails_beyond_float_range (libm_pow : float -> float -> float) :
  0 < 2 ^ 1024 /\
  calculate_z_value libm_pow (2 ^ 1024) 11 = Raises OverflowError /\
  ~ (exists z, calculate_z_value libm_pow (2 ^ 1024) 11 = Returns z /\
               z ^ 11 < 2 ^ 1024).
Proof.
  assert (Hr : calculate_z_value libm_pow (2 ^ 1024) 11 = Raises OverflowError).
  { unfold calculate_z_value, py_pow.
    destruct (py_truediv_returns 1 11) as (m & e & Hd); [lia | lia |].
    rewrite Hd. cbn [bind].
    rewrite (py_float_of_int_overflow (2 ^ 1024)) by (unfold overflow_threshold; lia).
    reflexivity. }
  split; [apply Z.pow_pos_nonneg; lia |]. split; [exact Hr |].
  intros (z & Hz & _). rewrite Hr in Hz. discriminate Hz.
Qed.




Lemma calculate_z_value_overflows_witness :
  (3 <= 11 <= 11 /\ 2 ^ 1024 <= (2 ^ 93) ^ 11 + (2 ^ 93) ^ 11) /\
  calculate_z_value Sample.sample_pow ((2 ^ 93) ^ 11 + (2 ^ 93) ^ 11) 11 =
    Raises OverflowError.
Proof.
  assert (Hn : 3 <= 11 <= 11) by lia.
  assert (Hs : 2 ^ 1024 <= (2 ^ 93) ^ 11 + (2 ^ 93) ^ 11).
  { rewrite (proj2 (proj2 (proj2
      (calculate_z_value_overflows Sample.sample_pow Sample.sample_clock)))).
    lia. }
  split; [exact (conj Hn Hs) |].
  exact (proj1 (calculate_z_value_overflows Sample.sample_pow Sample.sample_clock) _ 11 Hn Hs).
Defined.

Lemma best_is_minimal_witness :
  exists out,
    (3 <= 3 <= 11 /\ 10 < 11 /\
     find_near_misses Sample.sample_pow Sample.sample_clock 3 11 = Returns out) /\
    exists x y best_z abs_miss rel_miss,
      best_result (final_state out) = Some (x, y, best_z, abs_miss, rel_miss) /\
      forall x' y', 10 <= x' <= 11 -> 10 <= y' <= 11 ->
        exists z' abs_miss' rel_miss' is_lower_z',
          evaluates Sample.sample_pow 3 x' y' z' abs_miss' rel_miss' is_lower_z' /\
          leb rel_miss rel_miss' = true.
Proof.
  assert (Hn : 3 <= 3 <= 11) by lia.
  assert (Hk : 10 < 11) by lia.
  destruct (find_near_misses Sample.sample_pow Sample.sample_clock 3 11) as [out | e] eqn:Hrun;
    [| vm_compute in Hrun; discriminate Hrun].
  exists out. split; [exact (conj Hn (conj Hk eq_refl)) |].
  destruct (best_is_minimal Sample.sample_pow Sample.sample_clock 3 11 out Hn Hk Hrun)
    as [(x & y & bz & a & r & _ & Hb & _ & Hmin) _].
  exists x, y, bz, a, r. split; [exact Hb | exact Hmin].
Defined.



(** * Further properties of the bracketer *)

(** A quotient that rounds to infinity is at least [2^1023]. *)
Lemma round_pos_overflow_large (a b : Z) :
  0 < a -> 0 < b -> round_pos a b = Inf false -> b * 2 ^ 1023 <= a.
Proof.
  intros Ha Hb. unfold round_pos.
  assert (He0 : Z.max (ratio_log2 a b - 52) emin =
                Z.max (ratio_log2 a b - 52) (-1074)) by reflexivity.
  set (e0 := Z.max (ratio_log2 a b - 52) emin) in *.
  destruct (Z.leb_spec 0 e0) as [Hs | Hs]; cbn [andb]; [| discriminate].
  destruct (Z.leb_spec overflow_threshold
              (round_half_even (a / (b * 2 ^ e0)) (a mod (b * 2 ^ e0)) (b * 2 ^ e0) * 2 ^ e0))
    as [Hbig | Hbig]; [intros _ | discriminate].
  unfold overflow_threshold in Hbig.
  pose proof (ratio_log2_scaled a b 0 Ha Hb ltac:(lia) ltac:(lia)) as [Hlo _].
  rewrite Z.add_0_l in Hlo.
  assert (HL : 2 ^ ratio_log2 a b = 2 ^ e0 * 2 ^ 52)
    by (rewrite <- Z.pow_add_r by lia; f_equal; lia).
  assert (H2e : 0 < 2 ^ e0) by (apply Z.pow_pos_nonneg; lia).
  set (D := b * 2 ^ e0) in *.
  assert (HD : 0 < D) by (unfold D; nia).
  pose proof (Z.div_mod a D ltac:(lia)) as Hdm.
  pose proof (Z.mod_pos_bound a D HD) as Hr.
  pose proof (round_half_even_bounds (a / D) (a mod D) D) as Hm.
  set (m := round_half_even (a / D) (a mod D) D) in *.
  change (2 ^ 1024) with (2 * 2 ^ 1023) in Hbig.
  assert (H1 : (m - 1) * D <= a) by nia.
  assert (H2 : 2 ^ 52 * D <= a) by (unfold D; nia).
  assert (H3 : b * (2 * 2 ^ 1023) <= m * D) by (unfold D; nia).
  change (2 ^ 52) with 4503599627370496 in H2. nia.
Qed.

(** Integers below [2^1023] in absolute value convert to a finite float of
    the same sign. *)
Lemma py_float_of_int_returns (a : Z) :
  Z.abs a < 2 ^ 1023 ->
  exists m e, py_float_of_int a = Returns (Finite m e) /\
              (a < 0 -> m < 0) /\ (0 < a -> 0 < m) /\ (a = 0 -> m = 0).
Proof.
  intros Ha. unfold py_float_of_int, round_ratio.
  destruct (Z.eqb_spec a 0) as [-> | Hnz].
  - exists 0, 0. repeat split; try reflexivity; lia.
  - change (Z.abs 1) with 1. change (1 <? 0) with false.
    destruct (round_pos_shape (Z.abs a) 1) as [Hinf | (m & e & Hfin)].
    + apply round_pos_overflow_large in Hinf; lia.
    + destruct (round_pos_nearest (Z.abs a) 1 m e ltac:(lia) ltac:(lia) Hfin)
        as (He & _ & _ & Hm).
      assert (Hpos : 0 < m).
      { rewrite ratio_log2_of_int in He by lia.
        pose proof (Z.log2_nonneg (Z.abs a)).
        assert (2 ^ 52 <= m) by (apply Hm; unfold emin in *; lia).
        pose proof (Z.pow_pos_nonneg 2 52). lia. }
      rewrite Hfin.
      destruct (Z.ltb_spec a 0) as [Hneg | Hneg]; cbn.
      * exists (- m), e. repeat split; try reflexivity; lia.
      * exists m, e. repeat split; try reflexivity; lia.
Qed.

(** The float [1/n], for an exponent of reasonable size, is positive, below
    one and not an integer. *)
Lemma inverse_exponent_float (n : Z) :
  2 <= n < 2 ^ 1000 ->
  exists m e, py_truediv 1 n = Returns (Finite m e) /\
              0 < m /\ e < 0 /\ is_integral m e = false.
Proof.
  intros Hn. unfold py_truediv, round_ratio.
  destruct (Z.eqb_spec n 0) as [? | _]; [lia |].
  change (1 =? 0) with false. cbn match. change (Z.abs 1) with 1.
  rewrite (Z.abs_eq n) by lia.
  destruct (round_pos_lt_one 1 n) as (m & e & Hr & He & Hm);
    [lia | change (2 ^ 11) with 2048; lia |].
  destruct (round_pos_nearest 1 n m e ltac:(lia) ltac:(lia) Hr) as (He0 & _ & _ & Hbig).
  assert (HL : - 1001 <= ratio_log2 1 n).
  { unfold ratio_log2. change (Z.log2 1) with 0.
    assert (Z.log2 n < 1000) by (apply Z.log2_lt_pow2; lia).
    destruct (0 <=? 0 - Z.log2 n);
      [destruct (n * _ <=? 1) | destruct (n <=? 1 * _)]; lia. }
  assert (Hpos : 0 < m).
  { assert (2 ^ 52 <= m) by (apply Hbig; unfold emin in *; lia).
    pose proof (Z.pow_pos_nonneg 2 52). lia. }
  rewrite Hr.
  assert (Hs : Bool.eqb (1 <? 0) (n <? 0) = true).
  { destruct (Z.ltb_spec n 0); [lia | reflexivity]. }
  rewrite Hs. exists m, e. split; [reflexivity |].
  split; [exact Hpos |]. split; [lia |].
  unfold is_integral.
  destruct (Z.leb_spec 0 e); [lia |]. cbn [orb].
  rewrite Z.mod_small by lia. apply Z.eqb_neq. lia.
Qed.

(** X1: the function tries the truncated float root [z0] and, when
    [z0^n >= sum], [z0 - 1], and nothing else.  So it returns a [z] with
    [z^n < sum < (z+1)^n] exactly when the sum lies strictly between
    [z0^n] and [(z0+1)^n] or strictly between [(z0-1)^n] and [z0^n]; a root
    estimated two or more too high gives a [z] with [z^n >= sum], and one
    estimated too low is returned as it is. *)
Theorem bracket_iff_estimate_adjacent (libm_pow : float -> float -> float)
    (sum_value n z0 : Z) :
  float_root_estimate libm_pow sum_value n = Returns z0 ->
  ((exists z, calculate_z_value libm_pow sum_value n = Returns z /\
              z ^ n < sum_value < (z + 1) ^ n) <->
   (z0 ^ n < sum_value < (z0 + 1) ^ n \/ (z0 - 1) ^ n < sum_value < z0 ^ n)) /\
  (1 <= z0 -> 0 <= n -> sum_value <= (z0 - 1) ^ n ->
   calculate_z_value libm_pow sum_value n = Returns (z0 - 1) /\
   sum_value <= (z0 - 1) ^ n) /\
  (0 <= z0 -> 1 <= n -> (z0 + 1) ^ n <= sum_value ->
   calculate_z_value libm_pow sum_value n = Returns z0 /\
   (z0 + 1) ^ n <= sum_value).
Proof.
  intros Hest. rewrite calculate_z_value_estimate, Hest. cbn [bind].
  split; [| split].
  - destruct (Z.leb_spec sum_value (z0 ^ n)) as [Hc | Hc]; split.
    + intros (z & [= <-] & Hlo & Hhi).
      replace (z0 - 1 + 1) with z0 in Hhi by lia. right. lia.
    + intros [H | H]; [lia |]. exists (z0 - 1). split; [reflexivity |].
      replace (z0 - 1 + 1) with z0 by lia. exact H.
    + intros (z & [= <-] & Hlo & Hhi). left. lia.
    + intros [H | H]; [| lia]. exists z0. split; [reflexivity | exact H].
  - intros Hz Hn Hover.
    pose proof (Z.pow_le_mono_l (z0 - 1) z0 n ltac:(lia)) as Hmono.
    rewrite (proj2 (Z.leb_le _ _)) by lia. split; [reflexivity | exact Hover].
  - intros Hz Hn Hunder.
    pose proof (Z.pow_lt_mono_l z0 (z0 + 1) n ltac:(lia) ltac:(lia)) as Hmono.
    rewrite (proj2 (Z.leb_gt _ _)) by lia. split; [reflexivity | exact Hunder].
Qed.

Lemma bracket_iff_estimate_adjacent_witness :
  (float_root_estimate pow_twenty 2000 3 = Returns 20 /\
   1 <= 20 /\ 0 <= 3 /\ 2000 <= (20 - 1) ^ 3) /\
  calculate_z_value pow_twenty 2000 3 = Returns 19.
Proof.
  assert (He : float_root_estimate pow_twenty 2000 3 = Returns 20)
    by (vm_compute; reflexivity).
  assert (Hz : 1 <= 20) by lia.
  assert (Hn : 0 <= 3) by lia.
  assert (Hs : 2000 <= (20 - 1) ^ 3) by (cbn; lia).
  split; [exact (conj He (conj Hz (conj Hn Hs))) |].
  exact (proj1 (proj1 (proj2 (bracket_iff_estimate_adjacent pow_twenty 2000 3 20 He))
                  Hz Hn Hs)).
Defined.

(** X2: the two smallest sums never reach the C library.  [1 ** w] is 1.0,
    which truncates to 1, and [1^n >= 1], so [calculate_z_value(1, n)] is 0;
    [0 ** w] is 0.0 and [0^n >= 0], so [calculate_z_value(0, n)] is -1. *)
Theorem degenerate_sums (libm_pow : float -> float -> float) (n : Z) :
  2 <= n < 2 ^ 1000 ->
  calculate_z_value libm_pow 1 n = Returns 0 /\
  calculate_z_value libm_pow 0 n = Returns (-1).
Proof.
  intros Hn.
  destruct (inverse_exponent_float n Hn) as (m & e & Hinv & Hm & He & _).
  assert (Hm0 : (m =? 0) = false) by (apply Z.eqb_neq; lia).
  assert (Hmn : (m <? 0) = false) by (apply Z.ltb_ge; lia).
  unfold calculate_z_value, py_pow. rewrite Hinv. cbn [bind]. split.
  - assert (Hone : py_float_of_int 1 = Returns (Finite 4503599627370496 (-52)))
      by (vm_compute; reflexivity).
    rewrite Hone. cbn [bind]. unfold py_float_pow. rewrite Hm0.
    change (4503599627370496 =? 0) with false.
    change (4503599627370496 <? 0) with false.
    assert (Heq : eqb (Finite 4503599627370496 (-52)) one = true)
      by (vm_compute; reflexivity).
    rewrite Heq. unfold one. cbn [bind py_int]. change (trunc 1 0) with 1.
    rewrite Z.pow_1_l by lia. reflexivity.
  - assert (Hzero : py_float_of_int 0 = Returns zero) by reflexivity.
    rewrite Hzero. cbn [bind]. unfold py_float_pow, zero. rewrite Hm0.
    change (0 =? 0) with true. cbn match. rewrite Hmn.
    cbn [bind py_int]. change (trunc 0 0) with 0.
    rewrite Z.pow_0_l by lia. reflexivity.
Qed.

Lemma degenerate_sums_witness :
  2 <= 3 < 2 ^ 1000 /\
  calculate_z_value Sample.sample_pow 1 3 = Returns 0 /\
  calculate_z_value Sample.sample_pow 0 3 = Returns (-1).
Proof.
  assert (Hn : 2 <= 3 < 2 ^ 1000).
  { split; [lia |].
    pose proof (Z.pow_lt_mono_r 2 2 1000 ltac:(lia) ltac:(lia) ltac:(lia)) as H.
    change (2 ^ 2) with 4 in H. lia. }
  split; [exact Hn |].
  exact (degenerate_sums Sample.sample_pow 3 Hn).
Defined.

(** X3: a negative sum has no real root: [sum ** (1/n)] is a complex number
    and [int()] of it raises [TypeError], for every exponent from 2 on. *)
Theorem negative_sum_raises (libm_pow : float -> float -> float) (sum_value n : Z) :
  2 <= n < 2 ^ 1000 -> - 2 ^ 1023 < sum_value < 0 ->
  calculate_z_value libm_pow sum_value n = Raises TypeError.
Proof.
  intros Hn Hs.
  destruct (inverse_exponent_float n Hn) as (mw & ew & Hinv & Hmw & Hew & Hint).
  destruct (py_float_of_int_returns sum_value) as (mv & ev & Hconv & Hneg & _ & _);
    [lia |].
  specialize (Hneg ltac:(lia)).
  unfold calculate_z_value, py_pow. rewrite Hinv. cbn [bind].
  rewrite Hconv. cbn [bind]. unfold py_float_pow.
  rewrite (proj2 (Z.eqb_neq mw 0)) by lia.
  rewrite (proj2 (Z.eqb_neq mv 0)) by lia.
  rewrite (proj2 (Z.ltb_lt mv 0)) by lia.
  rewrite Hint. reflexivity.
Qed.

Lemma negative_sum_raises_witness :
  (2 <= 3 < 2 ^ 1000 /\ - 2 ^ 1023 < -8 < 0) /\
  calculate_z_value Sample.sample_pow (-8) 3 = Raises TypeError.
Proof.
  assert (Hn : 2 <= 3 < 2 ^ 1000).
  { split; [lia |].
    pose proof (Z.pow_lt_mono_r 2 2 1000 ltac:(lia) ltac:(lia) ltac:(lia)) as H.
    change (2 ^ 2) with 4 in H. lia. }
  assert (Hs : - 2 ^ 1023 < -8 < 0).
  { split; [| lia].
    pose proof (Z.pow_lt_mono_r 2 3 1023 ltac:(lia) ltac:(lia) ltac:(lia)) as H.
    change (2 ^ 3) with 8 in H. lia. }
  split; [exact (conj Hn Hs) |].
  exact (negative_sum_raises Sample.sample_pow (-8) 3 Hn Hs).
Defined.

(** * Further properties of the miss evaluator *)






(** * Further properties of the search driver *)

Lemma py_range_empty (lo hi : Z) : hi <= lo -> py_range lo hi = [].
Proof.
  intros H. unfold py_range.
  replace (Z.to_nat (hi - lo)) with 0%nat by lia. reflexivity.
Qed.

Lemma grid_empty (k : Z) : k <= 9 -> grid k = [].
Proof. intros H. unfold grid. rewrite py_range_empty by lia. reflexivity. Qed.

(** X5: with [k <= 9] both ranges are empty: whatever [n] and the C library
    are, the search raises nothing, checks no candidate, keeps the sentinel
    [float('inf')], prints nothing after the banner and ends on "No valid
    near misses found". *)
Theorem empty_range_search (libm_pow : float -> float -> float) (clock : nat -> float)
    (n k : Z) :
  k <= 9 ->
  exists out,
    find_near_misses libm_pow clock n k = Returns out /\
    report out = NoValidNearMisses /\
    total_checked out = 0 /\
    best_relative_miss (final_state out) = infinity /\
    output (final_state out) = [Banner n k].
Proof.
  intros Hk. unfold find_near_misses. rewrite search_loops_flat, grid_empty by exact Hk.
  cbn [for_each bind]. eexists. split; [reflexivity |]. cbn. auto.
Qed.

Lemma empty_range_search_witness :
  9 <= 9 /\
  exists out,
    find_near_misses Sample.sample_pow Sample.sample_clock 3 9 = Returns out /\
    report out = NoValidNearMisses.
Proof.
  assert (Hk : 9 <= 9) by lia.
  split; [exact Hk |].
  destruct (empty_range_search Sample.sample_pow Sample.sample_clock 3 9 Hk)
    as (out & Hrun & Hrep & _).
  exists out. split; [exact Hrun | exact Hrep].
Defined.







(** ** The order of the enumeration *)










(** ** Ties: the first candidate wins *)

Section FirstWins.

Variable libm_pow : float -> float -> float.
Variable clock : nat -> float.



End FirstWins.



(** ** What the search prints *)











(** * The console session *)

Lemma valid_n_spec (n : Z) : valid_n n = true <-> 3 <= n <= 11.
Proof. unfold valid_n. rewrite andb_true_iff, !Z.ltb_lt. lia. Qed.

Lemma valid_k_spec (k : Z) : valid_k k = true <-> 10 < k.
Proof. unfold valid_k. apply Z.ltb_lt. Qed.

Section Session.

Variable parse_int : String.string -> option Z.
Variable libm_pow : float -> float -> float.
Variable clock : nat -> float.

(** The loop stops at the first line that is an integer passing the test,
    and raises on a closed input. *)
Lemma prompt_until_spec (valid : Z -> bool) (prompt range_error : message)
    (inputs : list String.string) :
  match prompt_until parse_int valid prompt range_error inputs with
  | (printed, Some (v, rest)) =>
      exists pre line,
        inputs = pre ++ line :: rest /\
        Forall (rejected parse_int valid) pre /\
        parse_int line = Some v /\ valid v = true /\
        printed = retries parse_int prompt range_error pre ++ [prompt]
  | (printed, None) =>
      Forall (rejected parse_int valid) inputs /\
      printed = retries parse_int prompt range_error inputs ++ [prompt]
  end.
Proof.
  induction inputs as [| line rest IH]; cbn [prompt_until].
  - split; [constructor | reflexivity].
  - destruct (parse_int line) as [v |] eqn:Hp.
    + destruct (valid v) eqn:Hv.
      * exists [], line. cbn. repeat split; try assumption. constructor.
      * destruct (prompt_until parse_int valid prompt range_error rest)
          as [printed [[v' rest'] |]].
        -- destruct IH as (pre & l & Hin & Hrej & Hpl & Hvl & Hpr).
           exists (line :: pre), l. cbn [app retries flat_map].
           unfold rejection_message at 1. rewrite Hp.
           repeat split; try assumption.
           ++ rewrite Hin. reflexivity.
           ++ constructor; [unfold rejected; rewrite Hp; exact Hv | exact Hrej].
           ++ rewrite Hpr. reflexivity.
        -- destruct IH as (Hrej & Hpr). cbn [retries flat_map app].
           unfold rejection_message at 1. rewrite Hp. split.
           ++ constructor; [unfold rejected; rewrite Hp; exact Hv | exact Hrej].
           ++ rewrite Hpr. reflexivity.
    + destruct (prompt_until parse_int valid prompt range_error rest)
        as [printed [[v' rest'] |]].
      * destruct IH as (pre & l & Hin & Hrej & Hpl & Hvl & Hpr).
        exists (line :: pre), l. cbn [app retries flat_map].
        unfold rejection_message at 1. rewrite Hp.
        repeat split; try assumption.
        -- rewrite Hin. reflexivity.
        -- constructor; [unfold rejected; rewrite Hp; exact I | exact Hrej].
        -- rewrite Hpr. reflexivity.
      * destruct IH as (Hrej & Hpr). cbn [retries flat_map app].
        unfold rejection_message at 1. rewrite Hp. split.
        -- constructor; [unfold rejected; rewrite Hp; exact I | exact Hrej].
        -- rewrite Hpr. reflexivity.
Qed.

(** Rejected lines are skipped, each with its messages. *)
Lemma prompt_until_skips (valid : Z -> bool) (prompt range_error : message)
    (pre rest : list String.string) :
  Forall (rejected parse_int valid) pre ->
  prompt_until parse_int valid prompt range_error (pre ++ rest) =
  (retries parse_int prompt range_error pre ++
     fst (prompt_until parse_int valid prompt range_error rest),
   snd (prompt_until parse_int valid prompt range_error rest)).
Proof.
  intros Hrej. induction Hrej as [| line pre Hline Hpre IH]; cbn [app].
  - cbn. destruct (prompt_until _ _ _ _ rest). reflexivity.
  - cbn [prompt_until retries flat_map]. unfold rejected in Hline.
    unfold rejection_message at 1.
    destruct (parse_int line) as [v |]; [rewrite Hline |]; rewrite IH; reflexivity.
Qed.

End Session.

Lemma retries_no_search (prompt range_error : message) parse_int pre n k out :
  prompt <> Searched n k out -> range_error <> Searched n k out ->
  ~ In (Searched n k out) (retries parse_int prompt range_error pre ++ [prompt]).
Proof.
  intros Hp He Hin. apply in_app_or in Hin. destruct Hin as [Hin | [Hin | []]].
  - unfold retries in Hin. apply in_flat_map in Hin.
    destruct Hin as (line & _ & [H | [H | []]]); [congruence |].
    unfold rejection_message in H. destruct (parse_int line); congruence.
  - congruence.
Qed.

Lemma completed_report libm_pow clock n k out :
  find_near_misses libm_pow clock n k = Returns out -> 10 <= k ->
  report out <> NoValidNearMisses.
Proof.
  intros Hrun Hk.
  destruct (find_near_misses_inv _ _ _ _ _ Hrun) as ((_ & _ & _ & Hbest) & Hrep & _).
  rewrite Hrep.
  destruct (best_result (final_state out)) as [[[[[x y] bz] a] r] |]; [discriminate |].
  destruct Hbest as [Hnil _].
  destruct (grid_first k Hk) as (rest & Hg). congruence.
Qed.

(** X11: [main] never starts a search with parameters it has not validated.
    A search appears in the session only for [n] with [3 <= n <= 11], the
    first input line that is such an integer, and [k > 10], the first later
    line that is such an integer; every line before them was answered with
    an error message; and the search then shown has a best result. *)
Theorem main_searches_validated (parse_int : String.string -> option Z)
    (libm_pow : float -> float -> float) (clock : nat -> float)
    (inputs : list String.string) (transcript : list message) (ending : session_end)
    (n k : Z) (out : search_outcome) :
  main parse_int libm_pow clock inputs = (transcript, ending) ->
  In (Searched n k out) transcript ->
  (3 <= n <= 11 /\ 10 < k) /\
  find_near_misses libm_pow clock n k = Returns out /\
  report out <> NoValidNearMisses /\
  exists pre_n line_n pre_k line_k rest,
    inputs = pre_n ++ line_n :: pre_k ++ line_k :: rest /\
    Forall (rejected parse_int valid_n) pre_n /\ parse_int line_n = Some n /\
    Forall (rejected parse_int valid_k) pre_k /\ parse_int line_k = Some k.
Proof.
  unfold main.
  pose proof (prompt_until_spec parse_int valid_n PromptN ErrorRangeN inputs) as Hn.
  destruct (prompt_until parse_int valid_n PromptN ErrorRangeN inputs)
    as [printed_n [[n0 rest_n] |]].
  - destruct Hn as (pre_n & line_n & Hin_n & Hrej_n & Hparse_n & Hvalid_n & Hprinted_n).
    pose proof (prompt_until_spec parse_int valid_k PromptK ErrorRangeK rest_n) as Hk.
    destruct (prompt_until parse_int valid_k PromptK ErrorRangeK rest_n)
      as [printed_k [[k0 rest_k] |]].
    + destruct Hk as (pre_k & line_k & Hin_k & Hrej_k & Hparse_k & Hvalid_k & Hprinted_k).
      destruct (find_near_misses libm_pow clock n0 k0) as [out0 | e] eqn:Hrun;
        intros [= <- <-] Hin.
      * destruct Hin as [Hin | Hin]; [discriminate Hin |].
        apply in_app_or in Hin. destruct Hin as [Hin | Hin];
          [exfalso; rewrite Hprinted_n in Hin;
           revert Hin; apply retries_no_search; discriminate |].
        apply in_app_or in Hin. destruct Hin as [Hin | Hin];
          [exfalso; rewrite Hprinted_k in Hin;
           revert Hin; apply retries_no_search; discriminate |].
        destruct Hin as [Heq | [Heq | []]]; [| discriminate Heq].
        injection Heq as -> -> ->.
        apply valid_n_spec in Hvalid_n. apply valid_k_spec in Hvalid_k.
        split; [split; assumption |]. split; [exact Hrun |].
        split; [apply (completed_report _ _ _ _ _ Hrun); lia |].
        exists pre_n, line_n, pre_k, line_k, rest_k.
        rewrite Hin_n, Hin_k. auto.
      * exfalso. destruct Hin as [Hin | Hin]; [discriminate Hin |].
        apply in_app_or in Hin. destruct Hin as [Hin | Hin].
        -- rewrite Hprinted_n in Hin. revert Hin. apply retries_no_search; discriminate.
        -- rewrite Hprinted_k in Hin. revert Hin. apply retries_no_search; discriminate.
    + destruct Hk as (_ & Hprinted_k). intros [= <- <-] Hin. exfalso.
      destruct Hin as [Hin | Hin]; [discriminate Hin |].
      apply in_app_or in Hin. destruct Hin as [Hin | Hin].
      * rewrite Hprinted_n in Hin. revert Hin. apply retries_no_search; discriminate.
      * rewrite Hprinted_k in Hin. revert Hin. apply retries_no_search; discriminate.
  - destruct Hn as (_ & Hprinted_n). intros [= <- <-] Hin. exfalso.
    destruct Hin as [Hin | Hin]; [discriminate Hin |].
    rewrite Hprinted_n in Hin. revert Hin. apply retries_no_search; discriminate.
Qed.

(** X12: the whole session on an input that holds a valid [n] and then a
    valid [k].  After the header, each rejected line costs a prompt and an
    error message, the accepted lines a prompt each; then the search runs
    with these [n] and [k].  If it raises, the exception leaves [main]; if
    it returns, [main] asks for Enter and returns when one more line is
    there, and ends on [EOFError] when the input is exhausted. *)
Theorem main_transcript (parse_int : String.string -> option Z)
    (libm_pow : float -> float -> float) (clock : nat -> float)
    (pre_n pre_k rest : list String.string) (line_n line_k : String.string) (n k : Z) :
  Forall (rejected parse_int valid_n) pre_n -> parse_int line_n = Some n -> 3 <= n <= 11 ->
  Forall (rejected parse_int valid_k) pre_k -> parse_int line_k = Some k -> 10 < k ->
  main parse_int libm_pow clock (pre_n ++ line_n :: pre_k ++ line_k :: rest) =
  let printed :=
    Header :: (retries parse_int PromptN ErrorRangeN pre_n ++ [PromptN]) ++
              (retries parse_int PromptK ErrorRangeK pre_k ++ [PromptK]) in
  match find_near_misses libm_pow clock n k with
  | Raises e => (printed, Uncaught e)
  | Returns out =>
      (printed ++ [Searched n k out; PromptExit],
       match rest with [] => EndOfInput | _ :: _ => Exited end)
  end.
Proof.
  intros Hrej_n Hparse_n Hn Hrej_k Hparse_k Hk.
  apply valid_n_spec in Hn. apply valid_k_spec in Hk.
  unfold main.
  rewrite (prompt_until_skips parse_int valid_n PromptN ErrorRangeN pre_n _ Hrej_n).
  cbn [prompt_until fst snd]. rewrite Hparse_n, Hn. cbn [fst snd].
  rewrite (prompt_until_skips parse_int valid_k PromptK ErrorRangeK pre_k _ Hrej_k).
  cbn [prompt_until fst snd]. rewrite Hparse_k, Hk. cbn [fst snd].
  cbn zeta.
  destruct (find_near_misses libm_pow clock n k) as [out | e]; [| reflexivity].
  f_equal. cbn [app]. f_equal. rewrite <- !app_assoc. reflexivity.
Qed.

(** X13: when the input ends before a valid [n], or after it before a valid
    [k], no search takes place: every line is answered with its error
    message and the session ends on the [EOFError] of the next prompt. *)
Theorem main_end_of_input (parse_int : String.string -> option Z)
    (libm_pow : float -> float -> float) (clock : nat -> float) :
  (forall inputs,
      Forall (rejected parse_int valid_n) inputs ->
      main parse_int libm_pow clock inputs =
      (Header :: retries parse_int PromptN ErrorRangeN inputs ++ [PromptN], EndOfInput)) /\
  (forall pre_n line_n n rest,
      Forall (rejected parse_int valid_n) pre_n -> parse_int line_n = Some n ->
      3 <= n <= 11 -> Forall (rejected parse_int valid_k) rest ->
      main parse_int libm_pow clock (pre_n ++ line_n :: rest) =
      (Header :: (retries parse_int PromptN ErrorRangeN pre_n ++ [PromptN]) ++
                 (retries parse_int PromptK ErrorRangeK rest ++ [PromptK]),
       EndOfInput)).
Proof.
  split.
  - intros inputs Hrej. unfold main.
    rewrite <- (app_nil_r inputs) at 1.
    rewrite (prompt_until_skips parse_int valid_n PromptN ErrorRangeN inputs [] Hrej).
    reflexivity.
  - intros pre_n line_n n rest Hrej_n Hparse_n Hn Hrej_k.
    apply valid_n_spec in Hn. unfold main.
    rewrite (prompt_until_skips parse_int valid_n PromptN ErrorRangeN pre_n _ Hrej_n).
    cbn [prompt_until fst snd]. rewrite Hparse_n, Hn. cbn [fst snd].
    rewrite <- (app_nil_r rest) at 1.
    rewrite (prompt_until_skips parse_int valid_k PromptK ErrorRangeK rest [] Hrej_k).
    reflexivity.
Qed.

Lemma main_searches_validated_witness :
  exists out,
    (main SampleSession.sample_int Sample.sample_pow Sample.sample_clock
       SampleSession.session_lines =
     (SampleSession.session_printed ++ [Searched 3 11 out; PromptExit], Exited) /\
     In (Searched 3 11 out)
        (SampleSession.session_printed ++ [Searched 3 11 out; PromptExit])) /\
    report out <> NoValidNearMisses.
Proof.
  destruct (find_near_misses Sample.sample_pow Sample.sample_clock 3 11) as [out | e] eqn:Hrun;
    [| vm_compute in Hrun; discriminate Hrun].
  exists out.
  assert (Hmain : main SampleSession.sample_int Sample.sample_pow Sample.sample_clock
                    SampleSession.session_lines =
                  (SampleSession.session_printed ++ [Searched 3 11 out; PromptExit], Exited)).
  { unfold main. cbn [SampleSession.session_lines].
    change (prompt_until SampleSession.sample_int valid_n PromptN ErrorRangeN
              SampleSession.session_lines)
      with ([PromptN; ErrorRangeN; PromptN; ErrorNotInteger; PromptN],
            Some (3, SampleSession.lines_after_n)).
    cbn match.
    change (prompt_until SampleSession.sample_int valid_k PromptK ErrorRangeK
              SampleSession.lines_after_n)
      with ([PromptK; ErrorRangeK; PromptK], Some (11, SampleSession.lines_after_k)).
    cbn match. rewrite Hrun. reflexivity. }
  assert (Hin : In (Searched 3 11 out)
                  (SampleSession.session_printed ++ [Searched 3 11 out; PromptExit])).
  { apply in_or_app. right. left. reflexivity. }
  split; [exact (conj Hmain Hin) |].
  exact (proj1 (proj2 (proj2
    (main_searches_validated _ _ _ _ _ _ 3 11 out Hmain Hin)))).
Defined.

Lemma main_transcript_witness :
  (Forall (rejected SampleSession.sample_int valid_n) SampleSession.lines_before_n /\
   SampleSession.sample_int SampleSession.line_n = Some 3 /\ 3 <= 3 <= 11 /\
   Forall (rejected SampleSession.sample_int valid_k) SampleSession.lines_before_k /\
   SampleSession.sample_int SampleSession.line_k = Some 11 /\ 10 < 11) /\
  snd (main SampleSession.sample_int Sample.sample_pow Sample.sample_clock
         (SampleSession.lines_before_n ++ SampleSession.line_n ::
          SampleSession.lines_before_k ++ SampleSession.line_k ::
          SampleSession.lines_after_k)) = Exited.
Proof.
  assert (H1 : Forall (rejected SampleSession.sample_int valid_n) SampleSession.lines_before_n).
  { repeat constructor. }
  assert (H2 : SampleSession.sample_int SampleSession.line_n = Some 3) by reflexivity.
  assert (H3 : 3 <= 3 <= 11) by lia.
  assert (H4 : Forall (rejected SampleSession.sample_int valid_k) SampleSession.lines_before_k).
  { repeat constructor. }
  assert (H5 : SampleSession.sample_int SampleSession.line_k = Some 11) by reflexivity.
  assert (H6 : 10 < 11) by lia.
  split; [exact (conj H1 (conj H2 (conj H3 (conj H4 (conj H5 H6))))) |].
  rewrite (main_transcript SampleSession.sample_int Sample.sample_pow Sample.sample_clock
             _ _ SampleSession.lines_after_k _ _ 3 11 H1 H2 H3 H4 H5 H6).
  cbn zeta.
  destruct (find_near_misses Sample.sample_pow Sample.sample_clock 3 11) as [out | e] eqn:Hrun;
    [reflexivity | vm_compute in Hrun; discriminate Hrun].
Defined.

Lemma main_end_of_input_witness :
  Forall (rejected SampleSession.sample_int valid_n) SampleSession.lines_before_n /\
  snd (main SampleSession.sample_int Sample.sample_pow Sample.sample_clock
         SampleSession.lines_before_n) = EndOfInput.
Proof.
  assert (H1 : Forall (rejected SampleSession.sample_int valid_n) SampleSession.lines_before_n).
  { repeat constructor. }
  split; [exact H1 |].
  rewrite (proj1 (main_end_of_input SampleSession.sample_int Sample.sample_pow
                    Sample.sample_clock) _ H1).
  reflexivity.
Defined.
